(** * HTTP-fetch support utilities of the feed bot: [src/web/utils.py]

    A shallow embedding of the date parser [rfc_2822_8601_to_datetime], of
    the cache-lifetime view [WebResponse], of the next-check heuristic
    [WebFeed.calc_next_check_as_per_server_side_cache] and of the
    proxy-bypass predicate [proxy_filter], followed by the properties
    established about them.

    Conventions of the embedding.
    - Python [str] is [string]; header and feed texts are taken in the ASCII
      range, where [str.lower], [str.isdecimal], [str.partition] and [int]
      are the functions of module [Py].
    - Python [int] is [Z]: unbounded. The conversion [int] of a string reads
      at most [sys.get_int_max_str_digits()] digits, 4300 unless the
      interpreter is told otherwise, and raises [ValueError] beyond.
    - [None] is [None]. A function that may raise returns a [result]; one
      that cannot returns its value. [with suppress(ValueError)] lets every
      other exception through.
    - A [datetime] is the count of its calendar fields with its zone offset,
      naive when it has none; sums stay within the years 1 to 9999 or raise.
    - The functions of the standard library that parse dates, addresses and
      URLs are the fields of the class [PyLib]: the properties hold for any
      such functions. Module [Ref] gives executable ones, to run the code on
      concrete headers. *)

From Stdlib Require Import ZArith List String Ascii Bool Lia.
Import ListNotations.

Local Open Scope string_scope.
Local Open Scope Z_scope.

(** ** Exceptions and results *)

Inductive exn : Type :=
| ValueError
| TypeError
| AttributeError
| IndexError
| OverflowError.

Inductive result (A : Type) : Type :=
| Ok (a : A)
| Raise (e : exn).

Arguments Ok {A} a.
Arguments Raise {A} e.

Definition bind {A B : Type} (m : result A) (k : A -> result B) : result B :=
  match m with
  | Ok a => k a
  | Raise e => Raise e
  end.

Notation "x <- m ;; k" := (bind m (fun x => k))
  (at level 61, m at next level, right associativity).

(** ** Python built-ins on strings and integers *)

Module Py.

Definition truthy (s : string) : bool :=
  match s with
  | EmptyString => false
  | String _ _ => true
  end.

(** [x or None] on an optional string: the empty string counts as absent. *)
Definition or_none (x : option string) : option string :=
  match x with
  | Some s => if truthy s then Some s else None
  | None => None
  end.

Definition code (c : ascii) : nat := nat_of_ascii c.

Definition is_upper (c : ascii) : bool :=
  (Nat.leb 65 (code c) && Nat.leb (code c) 90)%bool.

Definition lower_char (c : ascii) : ascii :=
  if is_upper c then ascii_of_nat (code c + 32) else c.

(** [str.lower] *)
Fixpoint lower (s : string) : string :=
  match s with
  | EmptyString => EmptyString
  | String c s' => String (lower_char c) (lower s')
  end.

Definition is_digit (c : ascii) : bool :=
  (Nat.leb 48 (code c) && Nat.leb (code c) 57)%bool.

Definition digit_val (c : ascii) : Z := Z.of_nat (code c) - 48.

(** [str.isdecimal]: at least one character, and all of them digits. *)
Fixpoint all_digits (s : string) : bool :=
  match s with
  | EmptyString => true
  | String c s' => (is_digit c && all_digits s')%bool
  end.

Definition isdecimal (s : string) : bool := (truthy s && all_digits s)%bool.

(** White space as [int] strips it: TAB..CR and the blank. *)
Definition is_space (c : ascii) : bool :=
  ((Nat.leb 9 (code c) && Nat.leb (code c) 13) || Nat.eqb (code c) 32)%bool.

(** [str.isspace] on one character: FS..US count as well. *)
Definition isspace (c : ascii) : bool :=
  (is_space c || (Nat.leb 28 (code c) && Nat.leb (code c) 31))%bool.

Fixpoint trim_left (s : string) : string :=
  match s with
  | EmptyString => EmptyString
  | String c s' => if is_space c then trim_left s' else s
  end.

Fixpoint trim_right (s : string) : string :=
  match s with
  | EmptyString => EmptyString
  | String c s' =>
      match trim_right s' with
      | EmptyString => if is_space c then EmptyString else String c EmptyString
      | r => String c r
      end
  end.

Definition trim (s : string) : string := trim_right (trim_left s).

(** Digits of an [int] literal after the first one: a single underscore may
    stand between two digits. [us] tells that the last character read was an
    underscore. *)
Fixpoint int_digits (s : string) (acc : Z) (us : bool) : option Z :=
  match s with
  | EmptyString => if us then None else Some acc
  | String c s' =>
      if is_digit c then int_digits s' (acc * 10 + digit_val c) false
      else if Ascii.eqb c "_" then
             if us then None else int_digits s' acc true
      else None
  end.

Definition int_unsigned (s : string) : option Z :=
  match s with
  | EmptyString => None
  | String c s' => if is_digit c then int_digits s' (digit_val c) false else None
  end.

(** [sys.get_int_max_str_digits()], at its default: [int] refuses a literal
    of more digits. Leading zeros count; the sign, the underscores and the
    blanks around do not. *)
Definition INT_MAX_STR_DIGITS : nat := 4300.

Fixpoint count_digits (s : string) : nat :=
  match s with
  | EmptyString => O
  | String c s' => if is_digit c then S (count_digits s') else count_digits s'
  end.

(** [int(s)] in base ten; [None] is [ValueError]. *)
Definition int_opt (s : string) : option Z :=
  if Nat.ltb INT_MAX_STR_DIGITS (count_digits s) then None
  else
    match trim s with
    | String "+" d => int_unsigned d
    | String "-" d => option_map Z.opp (int_unsigned d)
    | d => int_unsigned d
    end.

Definition int (s : string) : result Z :=
  match int_opt s with
  | Some n => Ok n
  | None => Raise ValueError
  end.

(** [sub in s] is [contains sub s]. *)
Fixpoint contains (sub s : string) : bool :=
  (prefix sub s
   || match s with
      | EmptyString => false
      | String _ s' => contains sub s'
      end)%bool.

Fixpoint drop (n : nat) (s : string) : string :=
  match n, s with
  | O, _ => s
  | S _, EmptyString => EmptyString
  | S n', String _ s' => drop n' s'
  end.

(** The leftmost occurrence of [sep] in [s]: what stands before and after. *)
Fixpoint find (sep s : string) : option (string * string) :=
  if prefix sep s then Some (EmptyString, drop (String.length sep) s)
  else match s with
       | EmptyString => None
       | String c s' =>
           match find sep s' with
           | Some (b, a) => Some (String c b, a)
           | None => None
           end
       end.

(** [s.partition(sep)] for a non-empty [sep]. *)
Definition partition (sep s : string) : string * string * string :=
  match find sep s with
  | Some (b, a) => (b, sep, a)
  | None => (s, EmptyString, EmptyString)
  end.

Definition part0 (p : string * string * string) : string := fst (fst p).
Definition part2 (p : string * string * string) : string := snd p.

(** [s.split(sep)] for a one-character separator *)
Fixpoint split (sep : ascii) (s : string) : list string :=
  match s with
  | EmptyString => [EmptyString]
  | String c s' =>
      if Ascii.eqb c sep then EmptyString :: split sep s'
      else match split sep s' with
           | w :: ws => String c w :: ws
           | [] => [String c EmptyString]
           end
  end.

(** [s.endswith(suffix)] *)
Fixpoint endswith (s suffix : string) : bool :=
  (String.eqb s suffix
   || match s with
      | EmptyString => false
      | String _ s' => endswith s' suffix
      end)%bool.

(** [s[-k]] for [k >= 1]: the [k]-th character from the end. *)
Definition index_from_end (s : string) (k : nat) : result ascii :=
  if Nat.ltb (String.length s) k then Raise IndexError
  else match String.get (String.length s - k) s with
       | Some c => Ok c
       | None => Raise IndexError
       end.

(** [any(f(x) for x in l)]: stops at the first true, lets an exception out. *)
Fixpoint any {A : Type} (f : A -> result bool) (l : list A) : result bool :=
  match l with
  | [] => Ok false
  | x :: l' => b <- f x ;; if b then Ok true else any f l'
  end.

End Py.

(** ** [datetime], as far as the source uses it *)

Module Datetime.

(** A [datetime.datetime]: [wall] counts the microseconds of its calendar
    fields from 0001-01-01T00:00:00; [utcoffset] is the offset of its
    [tzinfo] in microseconds, [None] for a naive value. *)
Record datetime : Type := mk {
  wall : Z;
  utcoffset : option Z
}.

Definition US_PER_SECOND : Z := 1000000.
Definition US_PER_DAY : Z := 86400 * US_PER_SECOND.
Definition MAXORDINAL : Z := 3652059.          (* date.max.toordinal() *)
Definition MAX_WALL : Z := MAXORDINAL * US_PER_DAY - 1.
Definition MAX_DELTA_DAYS : Z := 999999999.

(** [timedelta(seconds=s)], in microseconds. *)
Definition timedelta (seconds : Z) : result Z :=
  if Z.abs (seconds / 86400) >? MAX_DELTA_DAYS then Raise OverflowError
  else Ok (seconds * US_PER_SECOND).

(** [d + delta]: the calendar fields move, the zone stays. *)
Definition add (d : datetime) (delta : Z) : result datetime :=
  let w := wall d + delta in
  if (0 <=? w) && (w <=? MAX_WALL) then Ok (mk w (utcoffset d))
  else Raise OverflowError.

(** [d + timedelta(seconds=s)] *)
Definition plus_seconds (d : datetime) (s : Z) : result datetime :=
  delta <- timedelta s ;; add d delta.

(** [a > b]: naive with naive by the fields, aware with aware by the
    instant, and a [TypeError] for one of each. *)
Definition gt (a b : datetime) : result bool :=
  match utcoffset a, utcoffset b with
  | None, None => Ok (wall a >? wall b)
  | Some oa, Some ob => Ok (wall a - oa >? wall b - ob)
  | _, _ => Raise TypeError
  end.

(** [datetime.now(timezone.utc)] when the clock reads [clock]. *)
Definition now_utc (clock : Z) : datetime := mk clock (Some 0).

Definition is_utc_aware (d : datetime) : Prop := utcoffset d = Some 0.

(** The calendar, for [datetime(y, m, d, hh, mm, ss, tzinfo=...)]. *)
Definition is_leap (y : Z) : bool :=
  (y mod 4 =? 0) && (negb (y mod 100 =? 0) || (y mod 400 =? 0)).

Definition days_before_year (y : Z) : Z :=
  let p := y - 1 in p * 365 + p / 4 - p / 100 + p / 400.

Definition days_in_month (y m : Z) : Z :=
  if m =? 2 then (if is_leap y then 29 else 28)
  else if (m =? 4) || (m =? 6) || (m =? 9) || (m =? 11) then 30
  else 31.

Fixpoint days_before_month_aux (y : Z) (n : nat) : Z :=
  match n with
  | O => 0
  | S n' => days_before_month_aux y n' + days_in_month y (Z.of_nat n)
  end.

Definition days_before_month (y m : Z) : Z :=
  days_before_month_aux y (Z.to_nat (m - 1)).

Definition ymd2ord (y m d : Z) : Z :=
  days_before_year y + days_before_month y m + d.

Definition between (lo x hi : Z) : bool := (lo <=? x) && (x <=? hi).

(** [timezone(timedelta(seconds=o))], as the offset in microseconds: the
    offset is strictly within a day. *)
Definition timezone (o : Z) : result Z :=
  delta <- timedelta o ;;
  if (-86400 <? o) && (o <? 86400) then Ok delta else Raise ValueError.

(** The fields of the constructor are C [int]s. *)
Definition fits_c_int (x : Z) : bool := between (-2147483648) x 2147483647.

(** The constructor [datetime(y, m, d, hh, mi, ss, tzinfo=timezone(...))];
    [tz] is the zone offset in seconds when there is one. The zone is built
    first; then a field that is no C [int] is an [OverflowError], and one
    outside the calendar a [ValueError]. *)
Definition make (y m d hh mi ss : Z) (tz : option Z) : result datetime :=
  tzinfo <- match tz with
            | None => Ok None
            | Some o => off <- timezone o ;; Ok (Some off)
            end ;;
  if fits_c_int y && fits_c_int m && fits_c_int d
     && fits_c_int hh && fits_c_int mi && fits_c_int ss
  then
    if between 1 y 9999 && between 1 m 12 && between 1 d (days_in_month y m)
       && between 0 hh 23 && between 0 mi 59 && between 0 ss 59
    then
      Ok (mk (((ymd2ord y m d - 1) * 86400 + hh * 3600 + mi * 60 + ss)
              * US_PER_SECOND) tzinfo)
    else Raise ValueError
  else Raise OverflowError.

End Datetime.

Export Datetime (datetime).

(** ** [ipaddress], as far as the source uses it *)

Module Ipaddress.

Inductive address : Type :=
| IPv4Address (ip : Z)
| IPv6Address (ip : Z).

Record network : Type := mk_network {
  version : Z;              (* 4 or 6 *)
  network_address : Z;
  prefixlen : Z
}.

Definition all_ones (version : Z) : Z :=
  if version =? 4 then 2 ^ 32 - 1 else 2 ^ 128 - 1.

Definition netmask (n : network) : Z :=
  Z.lxor (all_ones (version n)) (Z.shiftr (all_ones (version n)) (prefixlen n)).

(** [a in n] *)
Definition contains (n : network) (a : address) : bool :=
  match a with
  | IPv4Address ip =>
      if negb (version n =? 4) then false
      else Z.land ip (netmask n) =? network_address n
  | IPv6Address ip =>
      if negb (version n =? 6) then false
      else Z.land ip (netmask n) =? network_address n
  end.

Definition v4 (a b c d : Z) : Z :=
  Z.lor (Z.shiftl a 24) (Z.lor (Z.shiftl b 16) (Z.lor (Z.shiftl c 8) d)).

(** The value of an IPv6 address whose first hextet is [h] and whose other
    hextets are zero. *)
Definition v6_high (h : Z) : Z := Z.shiftl h 112.

End Ipaddress.

(** ** The header map: [CIMultiDictProxy[str]]

    Keys are compared without regard to case; [get] answers with the value
    of the first entry whose key matches. *)

Module Headers.

Definition t : Type := list (string * string).

Definition key_eqb (k1 k2 : string) : bool :=
  String.eqb (Py.lower k1) (Py.lower k2).

Fixpoint get (h : t) (key : string) : option string :=
  match h with
  | [] => None
  | (k, v) :: h' => if key_eqb k key then Some v else get h' key
  end.

Definition get_default (h : t) (key default : string) : string :=
  match get h key with
  | Some v => v
  | None => default
  end.

End Headers.

(** ** Library functions the source calls

    - [parsedate_to_datetime]: [email.utils.parsedate_to_datetime];
    - [fromisoformat]: [datetime.fromisoformat];
    - [ip_address]: [ipaddress.ip_address];
    - [urlparse_hostname]: [urllib.parse.urlparse(url).hostname].

    The two date parsers raise [ValueError] on a string they cannot read
    (CPython 3.10 and later) and may raise something else: an
    [OverflowError] on a field too large for the constructor of the date.
    The source catches the [ValueError] alone. For [ip_address], [None] is
    the [ValueError] of a string that is no address, which the source
    catches. The last one is not guarded in the source: what it raises goes
    to the caller. *)

Class PyLib : Type := {
  parsedate_to_datetime : string -> result datetime;
  fromisoformat : string -> result datetime;
  ip_address : string -> option Ipaddress.address;
  urlparse_hostname : string -> result (option string)
}.

(** ** [rfc_2822_8601_to_datetime] *)

(** [with suppress(ValueError): return m]: [Ok (Some a)] returns [a],
    [Ok None] goes on to the statement after the block, and an exception
    other than [ValueError] leaves the function. *)
Definition suppress_ValueError {A : Type} (m : result A) : result (option A) :=
  match m with
  | Ok a => Ok (Some a)
  | Raise ValueError => Ok None
  | Raise e => Raise e
  end.

Definition rfc_2822_8601_to_datetime `{PyLib} (time_str : option string)
  : result (option datetime) :=
  match time_str with
  | None => Ok None
  | Some s =>
      if negb (Py.truthy s) then Ok None
      else
        r <- suppress_ValueError (parsedate_to_datetime s) ;;
        match r with
        | Some d => Ok (Some d)
        | None =>
            r <- suppress_ValueError (fromisoformat s) ;;
            match r with
            | Some d => Ok (Some d)
            | None => Ok None
            end
        end
  end.

(** ** [WebResponse]

    Every [cached_property] is a function of the record: the view is
    immutable and the value of a property never changes once read; one that
    raises stores nothing and raises again at the next access. The one
    property that reads the world, [now], is [datetime.now(timezone.utc)] at
    its first access; that instant is the field [clock]. *)

Module WebResponse.

Record t : Type := mk {
  url : string;                 (* redirected url *)
  ori_url : string;             (* original url *)
  content : option string;
  headers : Headers.t;
  status : Z;
  reason : option string;
  clock : Z
}.

Definition AGE_REMAINING_CLAMP_MIN : Z := 0.
Definition AGE_REMAINING_CLAMP_MAX : Z := 21600.    (* 6 hours *)

Definition etag (self : t) : option string :=
  Py.or_none (Headers.get (headers self) "ETag").    (* Prohibit empty string *)

Definition now (self : t) : datetime := Datetime.now_utc (clock self).

Definition date `{PyLib} (self : t) : result datetime :=
  parsed <- rfc_2822_8601_to_datetime (Headers.get (headers self) "Date") ;;
  match parsed with
  | Some d => Ok d
  | None => Ok (now self)
  end.

Definition last_modified `{PyLib} (self : t) : result datetime :=
  parsed <- rfc_2822_8601_to_datetime (Headers.get (headers self) "Last-Modified") ;;
  match parsed with
  | Some d => Ok d
  | None => date self
  end.

Definition max_age (self : t) : option Z :=
  let cache_control :=
    Py.lower (Headers.get_default (headers self) "Cache-Control" "") in
  if negb (Py.truthy cache_control) then None
  else if Py.contains "no-cache" cache_control
          || Py.contains "no-store" cache_control then Some 0
  else
    let max_age :=
      Py.part0 (Py.partition "," (Py.part2 (Py.partition "max-age=" cache_control))) in
    if Py.truthy max_age then
      if Py.truthy max_age then
        match Py.int max_age with
        | Ok n => Some n
        | Raise _ => None               (* except ValueError *)
        end
      else None
    else None.

Definition age (self : t) : option Z :=
  match Headers.get (headers self) "Age" with
  | Some age =>
      if Py.truthy age then
        match Py.int age with
        | Ok n => Some n
        | Raise _ => None               (* except ValueError *)
        end
      else None
  | None => None
  end.

(** [x or 0] on an optional integer *)
Definition or_zero (x : option Z) : Z :=
  match x with
  | Some n => n
  | None => 0
  end.

Definition age_remaining (self : t) : option Z :=
  match max_age self with
  | None => None
  | Some max_age =>
      let age_remaining := max_age - or_zero (age self) in
      if age_remaining <? AGE_REMAINING_CLAMP_MIN then Some AGE_REMAINING_CLAMP_MIN
      else if age_remaining >? AGE_REMAINING_CLAMP_MAX then Some AGE_REMAINING_CLAMP_MAX
      else Some age_remaining
  end.

(** max-age overrides Expires *)
Definition expires `{PyLib} (self : t) : result (option datetime) :=
  match age_remaining self with
  | None => rfc_2822_8601_to_datetime (Headers.get (headers self) "Expires")
  | Some r =>
      if r <=? 0 then Ok None
      else date <- date self ;;
           d <- Datetime.plus_seconds date r ;;
           Ok (Some d)
  end.

End WebResponse.

(** ** [WebFeed] *)

(** [rss_d.feed], read through [get] at three keys. *)
Record FeedDict : Type := mk_feed {
  generator : option string;
  updated : option string;
  ttl : option string
}.

Module WebFeed.

(** The field [error] of the source is not read by the method below and is
    left out. *)
Record t : Type := mk {
  url : string;
  ori_url : string;
  content : option string;
  headers : option Headers.t;
  status : Z;
  reason : option string;
  rss_d : option FeedDict;
  web_response : option WebResponse.t
}.

Definition CF_CACHE_STATUSES : list string :=
  ["HIT"; "MISS"; "EXPIRED"; "REVALIDATED"].

(** [x in {...}] for an optional string [x] *)
Definition in_set (x : option string) (set : list string) : bool :=
  match x with
  | Some s => existsb (String.eqb s) set
  | None => false
  end.

(** [x or -1] on an optional integer: zero counts as absent. *)
Definition or_minus_one (x : option Z) : Z :=
  match x with
  | Some n => if n =? 0 then -1 else n
  | None => -1
  end.

(** The first rule of the method: defer as per the Cloudflare cache.
    [Ok (Some e)] is [return e]; [Ok None] goes on to the second rule. *)
Definition edge_cache_rule `{PyLib} (self : t) (wr : WebResponse.t)
  : result (option datetime) :=
  match headers self with
  | None => Raise AttributeError
  | Some h =>
      if in_set (Headers.get h "cf-cache-status") CF_CACHE_STATUSES then
        expires <- WebResponse.expires wr ;;
        match expires with
        | Some e =>
            later <- Datetime.gt e (WebResponse.now wr) ;;
            Ok (if later then Some e else None)
        | None => Ok None
        end
      else Ok None
  end.

Definition ttl_in_second (rss : FeedDict) (wr : WebResponse.t) : result Z :=
  let ttl_in_minute_str :=
    match ttl rss with
    | Some s => s
    | None => ""
    end in
  v <- (if Py.isdecimal ttl_in_minute_str
        then n <- Py.int ttl_in_minute_str ;; Ok (Some (n * 60))
        else Ok (WebResponse.max_age wr)) ;;
  Ok (or_minus_one v).

(** The second rule: defer as per the RSSHub TTL (or Cache-Control max-age),
    only when the TTL is above five minutes. *)
Definition feed_ttl_rule `{PyLib} (self : t) (wr : WebResponse.t)
  : result (option datetime) :=
  match rss_d self with
  | None => Raise AttributeError
  | Some rss =>
      match generator rss, updated rss with
      | Some g, Some updated_str =>
          if String.eqb g "RSSHub" && Py.truthy updated_str then
            ttl <- ttl_in_second rss wr ;;
            if ttl >? 300 then
              updated <- rfc_2822_8601_to_datetime (Some updated_str) ;;
              match updated with
              | Some updated =>
                  next_check_time <- Datetime.plus_seconds updated ttl ;;
                  later <- Datetime.gt next_check_time (WebResponse.now wr) ;;
                  Ok (if later then Some next_check_time else None)
              | None => Ok None
              end
            else Ok None
          else Ok None
      | _, _ => Ok None
      end
  end.

Definition calc_next_check_as_per_server_side_cache `{PyLib} (self : t)
  : result (option datetime) :=
  match web_response self with
  | None => Ok None
  | Some wr =>
      r <- edge_cache_rule self wr ;;
      match r with
      | Some expires => Ok (Some expires)
      | None => feed_ttl_rule self wr
      end
  end.

End WebFeed.

(** ** [proxy_filter] *)

Definition PRIVATE_NETWORKS : list Ipaddress.network :=
  [ Ipaddress.mk_network 4 (Ipaddress.v4 127 0 0 0) 8;        (* 127.0.0.0/8 *)
    Ipaddress.mk_network 6 1 128;                             (* ::1/128 *)
    (* loopback is not a private network, list in here for convenience *)
    Ipaddress.mk_network 4 (Ipaddress.v4 169 254 0 0) 16;     (* link-local *)
    Ipaddress.mk_network 6 (Ipaddress.v6_high 0xfe80) 10;     (* fe80::/10 *)
    Ipaddress.mk_network 4 (Ipaddress.v4 10 0 0 0) 8;         (* class A *)
    Ipaddress.mk_network 4 (Ipaddress.v4 172 16 0 0) 12;      (* class B *)
    Ipaddress.mk_network 4 (Ipaddress.v4 192 168 0 0) 16;     (* class C *)
    Ipaddress.mk_network 6 (Ipaddress.v6_high 0xfc00) 7       (* ULA *)
  ].

(** The two settings of [env] the function reads. *)
Record Env : Type := mk_env {
  PROXY_BYPASS_PRIVATE : bool;
  PROXY_BYPASS_DOMAINS : list string
}.

Definition is_private (ip_a : Ipaddress.address) : bool :=
  existsb (fun network => Ipaddress.contains network ip_a) PRIVATE_NETWORKS.

(** The body of the generator given to [any] in the domain check. *)
Definition domain_matches (hostname domain : string) : result bool :=
  if Py.endswith hostname domain then
    if String.eqb hostname domain then Ok true
    else c <- Py.index_from_end hostname (String.length domain + 1) ;;
         Ok (Ascii.eqb c ".")
  else Ok false.

(** The private-network check, with its [suppress(ValueError)]: [true] when
    it returns [False] from the function. *)
Definition private_hit `{PyLib} (hostname : option string) : bool :=
  match hostname with
  | None => false                        (* ip_address(None): ValueError *)
  | Some h =>
      match ip_address h with
      | Some ip_a => is_private ip_a
      | None => false
      end
  end.

Definition nonempty {A : Type} (l : list A) : bool :=
  match l with
  | [] => false
  | _ :: _ => true
  end.

(** [True]: go through the proxy; [False]: bypass it. *)
Definition proxy_filter `{PyLib} (env : Env) (url : string) (parse : bool)
  : result bool :=
  if negb (PROXY_BYPASS_PRIVATE env || nonempty (PROXY_BYPASS_DOMAINS env))
  then Ok true
  else
    hostname <- (if parse then urlparse_hostname url else Ok (Some url)) ;;
    if PROXY_BYPASS_PRIVATE env && private_hit hostname then Ok false
    else if nonempty (PROXY_BYPASS_DOMAINS env) then
      match hostname with
      | None => Raise AttributeError
      | Some h =>
          is_bypassed <- Py.any (domain_matches h) (PROXY_BYPASS_DOMAINS env) ;;
          Ok (negb is_bypassed)
      end
    else Ok true.

(** ** A reference instance of the library functions

    Executable parsers for the usual layouts, so that the functions above
    can be run on concrete headers:
    - dates [[day-name,] DD Mon YYYY HH:MM[:SS] [zone]] for
      [parsedate_to_datetime], zone being a name of RFC 2822 or [+HHMM] /
      [-HHMM]; a missing zone, [-0000] or a name that is none of these
      gives a naive value; a field or an offset too large for the
      constructor raises [OverflowError];
    - dates [YYYY-MM-DD] and [YYYY-MM-DD?HH:MM:SS[Z|+HH:MM|-HH:MM]] for
      [fromisoformat] (as in CPython 3.11 and later); no offset gives a naive
      value;
    - dotted quads, and hextet notation with at most one [::], for
      [ip_address];
    - [scheme://[user@]host[:port][/...]] for [urlparse(url).hostname].
    A year that does not start with a digit changes places with the zone,
    as in the library. Layouts the library also accepts (day and month
    swapped, year and time swapped, a comma glued to a field, RFC 850 dates,
    a zone glued to the time, dots in the time, fractions of a second, zone
    identifiers, an IPv4 tail in an IPv6 address) are rejected here. *)

Module Ref.

Definition upper_char (c : ascii) : ascii :=
  if (Nat.leb 97 (Py.code c) && Nat.leb (Py.code c) 122)%bool
  then ascii_of_nat (Py.code c - 32) else c.

Fixpoint upper (s : string) : string :=
  match s with
  | EmptyString => EmptyString
  | String c s' => String (upper_char c) (upper s')
  end.

Definition space_to_blank (c : ascii) : ascii :=
  if Py.isspace c then " "%char else c.

Fixpoint blanks (s : string) : string :=
  match s with
  | EmptyString => EmptyString
  | String c s' => String (space_to_blank c) (blanks s')
  end.

(** [s.split()] *)
Definition split (s : string) : list string :=
  filter Py.truthy (Py.split " " (blanks s)).

Fixpoint index_of (x : string) (l : list string) (i : Z) : option Z :=
  match l with
  | [] => None
  | y :: l' => if String.eqb x y then Some i else index_of x l' (i + 1)
  end.

Definition monthnames : list string :=
  ["jan"; "feb"; "mar"; "apr"; "may"; "jun"; "jul"; "aug"; "sep"; "oct"; "nov";
   "dec"; "january"; "february"; "march"; "april"; "may"; "june"; "july";
   "august"; "september"; "october"; "november"; "december"].

Definition daynames : list string :=
  ["mon"; "tue"; "wed"; "thu"; "fri"; "sat"; "sun"].

Definition timezones : list (string * Z) :=
  [("UT", 0); ("UTC", 0); ("GMT", 0); ("Z", 0);
   ("AST", -400); ("ADT", -300); ("EST", -500); ("EDT", -400);
   ("CST", -600); ("CDT", -500); ("MST", -700); ("MDT", -600);
   ("PST", -800); ("PDT", -700)].

Fixpoint assoc (k : string) (l : list (string * Z)) : option Z :=
  match l with
  | [] => None
  | (k', v) :: l' => if String.eqb k k' then Some v else assoc k l'
  end.

Definition starts_with_minus (s : string) : bool :=
  match s with
  | String "-" _ => true
  | _ => false
  end.

(** The zone field: [None] for no offset, else the offset in seconds. *)
Definition zone_seconds (tz : string) : option Z :=
  let tz := upper tz in
  let tzoffset :=
    match assoc tz timezones with
    | Some o => Some o
    | None =>
        match Py.int_opt tz with
        | Some o => if (o =? 0) && starts_with_minus tz then None else Some o
        | None => None
        end
    end in
  match tzoffset with
  | None => None
  | Some o =>
      if o =? 0 then Some 0
      else
        let sign := if o <? 0 then -1 else 1 in
        let a := Z.abs o in
        Some (sign * ((a / 100) * 3600 + (a mod 100) * 60))
  end.

Definition hms (tm : string) : option (Z * Z * Z) :=
  match Py.split ":" tm with
  | [thh; tmm] =>
      match Py.int_opt thh, Py.int_opt tmm with
      | Some h, Some m => Some (h, m, 0)
      | _, _ => None
      end
  | [thh; tmm; tss] =>
      match Py.int_opt thh, Py.int_opt tmm, Py.int_opt tss with
      | Some h, Some m, Some s => Some (h, m, s)
      | _, _, _ => None
      end
  | _ => None
  end.

Definition drop_dayname (data : list string) : list string :=
  match data with
  | first :: rest =>
      if Py.endswith first "," || existsb (String.eqb (Py.lower first)) daynames
      then rest else data
  | [] => []
  end.

Definition parsedate (s : string) : result datetime :=
  let fields :=
    match drop_dayname (split s) with
    | [dd; mm; yy; tm] => Some (dd, mm, yy, tm, "")      (* dummy tz *)
    | dd :: mm :: yy :: tm :: tz :: _ => Some (dd, mm, yy, tm, tz)
    | _ => None
    end in
  match fields with
  | None => Raise ValueError
  | Some (dd, mm, yy, tm, tz) =>
      let (yy, tz) :=
        if Py.is_digit (match yy with String c _ => c | EmptyString => " "%char end)
        then (yy, tz) else (tz, yy) in
      match index_of (Py.lower mm) monthnames 0,
            Py.int_opt yy, Py.int_opt dd, hms tm with
      | Some i, Some y, Some d, Some (h, mi, sec) =>
          let y := if y <? 100 then (if y >? 68 then y + 1900 else y + 2000) else y in
          Datetime.make y (i mod 12 + 1) d h mi sec (zone_seconds tz)
      | _, _, _, _ => Raise ValueError
      end
  end.

(** A field of exactly [n] digits at the head of [s], and what follows. *)
Definition digits_field (n : nat) (s : string) : option (Z * string) :=
  let f := String.substring 0 n s in
  if Nat.eqb (String.length f) n && Py.all_digits f then
    match Py.int_opt f with
    | Some v => Some (v, Py.drop n s)
    | None => None
    end
  else None.

Definition expect (c : ascii) (s : string) : option string :=
  match s with
  | String c' s' => if Ascii.eqb c c' then Some s' else None
  | EmptyString => None
  end.

Definition iso_zone (s : string) : option (option Z) :=
  match s with
  | EmptyString => Some None
  | "Z" => Some (Some 0)
  | String sg r =>
      if Ascii.eqb sg "+" || Ascii.eqb sg "-" then
        match digits_field 2 r with
        | Some (zh, r1) =>
            match expect ":" r1 with
            | Some r2 =>
                match digits_field 2 r2 with
                | Some (zm, EmptyString) =>
                    if (zh <=? 23) && (zm <=? 59) then
                      Some (Some ((if Ascii.eqb sg "-" then -1 else 1)
                                  * (zh * 3600 + zm * 60)))
                    else None
                | _ => None
                end
            | None => None
            end
        | None => None
        end
      else None
  end.

Definition isoformat (s : string) : result datetime :=
  match digits_field 4 s with
  | Some (y, r1) =>
    match expect "-" r1 with
    | Some r2 =>
      match digits_field 2 r2 with
      | Some (m, r3) =>
        match expect "-" r3 with
        | Some r4 =>
          match digits_field 2 r4 with
          | Some (d, EmptyString) => Datetime.make y m d 0 0 0 None
          | Some (d, String _ r5) =>
            match digits_field 2 r5 with
            | Some (hh, r6) =>
              match expect ":" r6 with
              | Some r7 =>
                match digits_field 2 r7 with
                | Some (mi, r8) =>
                  match expect ":" r8 with
                  | Some r9 =>
                    match digits_field 2 r9 with
                    | Some (ss, r10) =>
                      match iso_zone r10 with
                      | Some tz => Datetime.make y m d hh mi ss tz
                      | None => Raise ValueError
                      end
                    | None => Raise ValueError
                    end
                  | None => Raise ValueError
                  end
                | None => Raise ValueError
                end
              | None => Raise ValueError
              end
            | None => Raise ValueError
            end
          | None => Raise ValueError
          end
        | None => Raise ValueError
        end
      | None => Raise ValueError
      end
    | None => Raise ValueError
    end
  | None => Raise ValueError
  end.

(** Dotted quads: four decimal fields of one to three digits, none above
    255, none with a leading zero. *)
Definition octet (s : string) : option Z :=
  if Py.isdecimal s && Nat.leb (String.length s) 3
     && negb (Nat.ltb 1 (String.length s) && prefix "0" s)
  then match Py.int_opt s with
       | Some v => if v <=? 255 then Some v else None
       | None => None
       end
  else None.

Definition ipv4 (s : string) : option Z :=
  match Py.split "." s with
  | [a; b; c; d] =>
      match octet a, octet b, octet c, octet d with
      | Some a, Some b, Some c, Some d => Some (Ipaddress.v4 a b c d)
      | _, _, _, _ => None
      end
  | _ => None
  end.

Definition hex_val (c : ascii) : option Z :=
  let n := Py.code c in
  if Py.is_digit c then Some (Z.of_nat n - 48)
  else if (Nat.leb 97 n && Nat.leb n 102)%bool then Some (Z.of_nat n - 87)
  else if (Nat.leb 65 n && Nat.leb n 70)%bool then Some (Z.of_nat n - 55)
  else None.

Fixpoint hex_digits (s : string) (acc : Z) : option Z :=
  match s with
  | EmptyString => Some acc
  | String c s' =>
      match hex_val c with
      | Some v => hex_digits s' (acc * 16 + v)
      | None => None
      end
  end.

Definition hextet (s : string) : option Z :=
  if Py.truthy s && Nat.leb (String.length s) 4 then hex_digits s 0 else None.

(** [ip_int <<= 16; ip_int |= hextet] over the parts *)
Fixpoint hextets (parts : list string) (ip_int : Z) : option Z :=
  match parts with
  | [] => Some ip_int
  | p :: parts' =>
      match hextet p with
      | Some v => hextets parts' (Z.lor (Z.shiftl ip_int 16) v)
      | None => None
      end
  end.

(** Indices, between the end points, of the empty parts. *)
Fixpoint empty_inner (parts : list string) (i : nat) (n : nat) : list nat :=
  match parts with
  | [] => []
  | p :: parts' =>
      let rest := empty_inner parts' (S i) n in
      if Nat.ltb 0 i && Nat.ltb (S i) n && negb (Py.truthy p) then i :: rest else rest
  end.

Definition ipv6 (s : string) : option Z :=
  let parts := Py.split ":" s in
  let n := List.length parts in
  if Nat.ltb n 3 || Nat.ltb 9 n then None
  else
    let first_empty := negb (Py.truthy (hd "" parts)) in
    let last_empty := negb (Py.truthy (last parts "")) in
    match empty_inner parts 0 n with
    | [] =>
        if Nat.eqb n 8 && negb first_empty && negb last_empty
        then hextets parts 0 else None
    | [skip_index] =>
        let parts_hi := skip_index in
        let parts_lo := (n - skip_index - 1)%nat in
        let hi_ok := if first_empty then Nat.eqb parts_hi 1 else true in
        let lo_ok := if last_empty then Nat.eqb parts_lo 1 else true in
        let parts_hi := if first_empty then (parts_hi - 1)%nat else parts_hi in
        let parts_lo := if last_empty then (parts_lo - 1)%nat else parts_lo in
        if hi_ok && lo_ok && Nat.ltb (parts_hi + parts_lo) 8 then
          match hextets (firstn parts_hi parts) 0 with
          | Some hi =>
              hextets (skipn (n - parts_lo) parts)
                      (Z.shiftl hi (16 * Z.of_nat (8 - (parts_hi + parts_lo))))
          | None => None
          end
        else None
    | _ => None                          (* more than one '::' *)
    end.

Definition ip_address (s : string) : option Ipaddress.address :=
  match ipv4 s with
  | Some ip => Some (Ipaddress.IPv4Address ip)
  | None =>
      match ipv6 s with
      | Some ip => Some (Ipaddress.IPv6Address ip)
      | None => None
      end
  end.

Definition is_alpha (c : ascii) : bool :=
  let n := Py.code c in
  ((Nat.leb 65 n && Nat.leb n 90) || (Nat.leb 97 n && Nat.leb n 122))%bool.

Definition scheme_char (c : ascii) : bool :=
  is_alpha c || Py.is_digit c || Ascii.eqb c "+" || Ascii.eqb c "-" || Ascii.eqb c ".".

Fixpoint all_chars (f : ascii -> bool) (s : string) : bool :=
  match s with
  | EmptyString => true
  | String c s' => f c && all_chars f s'
  end.

Definition after_scheme (url : string) : string :=
  match Py.find ":" url with
  | Some (String c sch, rest) =>
      if is_alpha c && all_chars scheme_char sch then rest else url
  | _ => url
  end.

(** The text before the first character that satisfies [stop]. *)
Fixpoint until (stop : ascii -> bool) (s : string) : string :=
  match s with
  | EmptyString => EmptyString
  | String c s' => if stop c then EmptyString else String c (until stop s')
  end.

Definition hostname (url : string) : result (option string) :=
  match after_scheme url with
  | String "/" (String "/" rest) =>
      let netloc :=
        until (fun c => Ascii.eqb c "/" || Ascii.eqb c "?" || Ascii.eqb c "#") rest in
      let hostinfo := last (Py.split "@" netloc) "" in
      let host :=
        match Py.find "[" hostinfo with
        | Some (_, bracketed) => Py.part0 (Py.partition "]" bracketed)
        | None => Py.part0 (Py.partition ":" hostinfo)
        end in
      Ok (if Py.truthy host then Some (Py.lower host) else None)
  | _ => Ok None
  end.

#[export] Instance lib : PyLib := {
  parsedate_to_datetime := parsedate;
  fromisoformat := isoformat;
  ip_address := ip_address;
  urlparse_hostname := hostname
}.

End Ref.


(** ** More built-ins on strings *)

Module PyStr.

(** [s.replace(old, new)] for one-character [old] and [new] *)
Fixpoint replace (old new : ascii) (s : string) : string :=
  match s with
  | EmptyString => EmptyString
  | String c s' =>
      String (if Ascii.eqb c old then new else c) (replace old new s')
  end.

End PyStr.

(** ** [WebError] *)

(** The message catalogue [i18n[lang][key]] of the package; what the lookup
    raises goes to the caller. *)
Class I18n : Type := {
  i18n : option string -> string -> result string
}.

Module WebError.

(** An item handed to [_join_snips]: [None], a [str], or an [int] (the
    status may be either). *)
Inductive snip : Type :=
| NoneSnip
| Str (s : string)
| Int (n : Z).

(** The truth value [filter(None, ...)] goes by. *)
Definition truthy (x : snip) : bool :=
  match x with
  | NoneSnip => false
  | Str s => Py.truthy s
  | Int n => negb (n =? 0)
  end.

(** [sep.join(items)]: a [TypeError] on an item that is not a [str]. *)
Fixpoint join (sep : string) (items : list snip) : result string :=
  match items with
  | [] => Ok EmptyString
  | Str s :: [] => Ok s
  | Str s :: rest => r <- join sep rest ;; Ok (s ++ sep ++ r)
  | _ :: _ => Raise TypeError
  end.

Definition _join_snips (sep : string) (snips : list snip) : result string :=
  join sep (filter truthy snips).

(** An exception object, as far as the class reads it: the name of its
    type. Exception objects are true. *)
Record exception : Type := mk_exception {
  type_name : string
}.

Definition of_option (x : option string) : snip :=
  match x with
  | Some s => Str s
  | None => NoneSnip
  end.

Record t : Type := mk {
  error_name : string;
  status : snip;
  url : option string;
  base_error : option exception;
  detail : string
}.

(** The call [logger.log(level, msg, exc_info=...)]. *)
Record log_record : Type := mk_log {
  level : Z;
  msg : string;
  exc_info : option exception
}.

(** [env.DEBUG] and [log.ERROR]. *)
Record settings : Type := mk_settings {
  DEBUG : bool;
  ERROR : Z
}.

(** [__init__]: the object and the record it logs. *)
Definition init (cfg : settings) (error_name : string) (status : snip)
           (url : option string) (base_error : option exception) (log_level : Z)
  : result (t * log_record) :=
  detail <- _join_snips ", "
              [ match base_error with
                | Some b => Str (type_name b)
                | None => NoneSnip
                end;
                status ] ;;
  reason <- _join_snips ", " [Str error_name; Str detail] ;;
  log_msg <- _join_snips ": " [Str ("Fetch failed (" ++ reason ++ ")"); of_option url] ;;
  Ok (mk error_name status url base_error detail,
      mk_log log_level log_msg
             (if (log_level >=? ERROR cfg) || DEBUG cfg then base_error else None)).

Definition error_key (self : t) : string :=
  PyStr.replace " " "_" (Py.lower (error_name self)).

Definition i18n_message `{I18n} (self : t) (lang : option string) : result string :=
  message <- i18n lang (error_key self) ;;
  _join_snips " "
    [ Str "ERROR:";
      Str message;
      if Py.truthy (detail self) then Str ("(" ++ detail self ++ ")") else NoneSnip ].

(** [__str__] *)
Definition str `{I18n} (self : t) : result string := i18n_message self None.

End WebError.

(** ** [YummyCookieJar] *)

(** What the class asks of a cookie jar of [aiohttp]: the operations of
    [AbstractCookieJar], over the state of the jar. A call that takes
    [*args, **kwargs] takes a [call]; it answers with a [value] and leaves
    the jar in a new state. *)
Record CookieJarImpl (args call value cookie : Type) : Type := mk_impl {
  jar : Type;
  jar_new : args -> jar;
  jar_update_cookies : jar -> call -> value * jar;
  jar_iter : jar -> list cookie;
  jar_len : jar -> nat;
  jar_clear : jar -> call -> value * jar;
  jar_clear_domain : jar -> call -> value * jar;
  jar_filter_cookies : jar -> call -> value * jar;
  jar_quote_cookie : jar -> bool
}.

Arguments jar {args call value cookie} _.
Arguments jar_new {args call value cookie} _ _.
Arguments jar_update_cookies {args call value cookie} _ _ _.
Arguments jar_iter {args call value cookie} _ _.
Arguments jar_len {args call value cookie} _ _.
Arguments jar_clear {args call value cookie} _ _ _.
Arguments jar_clear_domain {args call value cookie} _ _ _.
Arguments jar_filter_cookies {args call value cookie} _ _ _.
Arguments jar_quote_cookie {args call value cookie} _ _.

(** [aiohttp.DummyCookieJar] and [aiohttp.CookieJar]. *)
Class Aiohttp : Type := {
  init_args : Type;
  call_args : Type;
  value : Type;
  cookie : Type;
  DummyCookieJar : CookieJarImpl init_args call_args value cookie;
  CookieJar : CookieJarImpl init_args call_args value cookie
}.

Module YummyCookieJar.

Section Jar.

Context {A : Aiohttp}.

(** The jar behind [__real_cookie_jar]. *)
Inductive real_cookie_jar : Type :=
| Dummy (d : jar DummyCookieJar)
| Real (j : jar CookieJar).

Record t : Type := mk {
  real : real_cookie_jar;
  init : init_args;             (* __init_args, __init_kwargs *)
  is_dummy : bool
}.

Definition __init__ (args : init_args) : t :=
  mk (Dummy (jar_new DummyCookieJar args)) args true.

(** A call passed on to the jar behind, whichever it is. *)
Definition delegate (self : t)
           (on_dummy : jar DummyCookieJar -> call_args -> value * jar DummyCookieJar)
           (on_real : jar CookieJar -> call_args -> value * jar CookieJar)
           (a : call_args) : value * t :=
  match real self with
  | Dummy d => let (v, d') := on_dummy d a in (v, mk (Dummy d') (init self) (is_dummy self))
  | Real j => let (v, j') := on_real j a in (v, mk (Real j') (init self) (is_dummy self))
  end.

Definition update_cookies (self : t) (a : call_args) : value * t :=
  let self :=
    if is_dummy self
    then mk (Real (jar_new CookieJar (init self))) (init self) false
    else self in
  delegate self (jar_update_cookies DummyCookieJar) (jar_update_cookies CookieJar) a.

Definition __iter__ (self : t) : list cookie :=
  match real self with
  | Dummy d => jar_iter DummyCookieJar d
  | Real j => jar_iter CookieJar j
  end.

Definition __len__ (self : t) : nat :=
  match real self with
  | Dummy d => jar_len DummyCookieJar d
  | Real j => jar_len CookieJar j
  end.

Definition clear (self : t) (a : call_args) : value * t :=
  delegate self (jar_clear DummyCookieJar) (jar_clear CookieJar) a.

Definition clear_domain (self : t) (a : call_args) : value * t :=
  delegate self (jar_clear_domain DummyCookieJar) (jar_clear_domain CookieJar) a.

Definition filter_cookies (self : t) (a : call_args) : value * t :=
  delegate self (jar_filter_cookies DummyCookieJar) (jar_filter_cookies CookieJar) a.

Definition quote_cookie (self : t) : bool :=
  match real self with
  | Dummy d => jar_quote_cookie DummyCookieJar d
  | Real j => jar_quote_cookie CookieJar j
  end.

End Jar.

End YummyCookieJar.
(** ** Notions of the specification *)

(** [sub] occurs in [s]. *)
Definition occurs (sub s : string) : Prop :=
  exists a b, s = a ++ sub ++ b.

(** [sep] occurs in [s] between [pre] and [post], and nowhere earlier. *)
Definition first_occurrence (sep s pre post : string) : Prop :=
  s = pre ++ sep ++ post /\
  forall pre' post', s = pre' ++ sep ++ post' ->
                     (String.length pre <= String.length pre')%nat.

(** [text] is [post] up to its first comma, or all of it when it has none. *)
Definition upto_comma (post text : string) : Prop :=
  ~ occurs "," text /\ (post = text \/ exists rest, post = text ++ "," ++ rest).

(** The value of a string of decimal digits, read from the left. *)
Fixpoint decimal_from (s : string) (acc : Z) : Z :=
  match s with
  | EmptyString => acc
  | String c s' => decimal_from s' (acc * 10 + Py.digit_val c)
  end.

Definition decimal_value (s : string) : Z := decimal_from s 0.

(** [x] clamped to the closed interval from [lo] to [hi]. *)
Definition clamp (lo hi x : Z) : Z := Z.max lo (Z.min hi x).

(** A [Cache-Control] value has a max-age directive of its own when one of
    its comma-separated directives, blanks and case apart, is named
    [max-age]. *)
Definition directive_name (d : string) : string :=
  Py.trim (Py.part0 (Py.partition "=" (Py.trim d))).

Definition has_max_age_directive (cache_control : string) : bool :=
  existsb (fun d => String.eqb (directive_name d) "max-age")
          (Py.split "," (Py.lower cache_control)).

(** The header map looked up by the key as it is written, case included. *)
Fixpoint get_exact (h : Headers.t) (key : string) : option string :=
  match h with
  | [] => None
  | (k, v) :: h' => if String.eqb k key then Some v else get_exact h' key
  end.

(** The provider's cache status is one of the four the rule looks for. *)
Definition cache_status_hit (status : option string) : Prop :=
  exists s, status = Some s /\ In s ["HIT"; "MISS"; "EXPIRED"; "REVALIDATED"].

(** The effective TTL in seconds, as the rule is worded: the feed's [ttl]
    times sixty when it is a string of decimal digits, otherwise the
    response's [max_age], and [-1] when neither gives a value. *)
Definition spec_ttl (rss : FeedDict) (wr : WebResponse.t) : Z :=
  let ttl_str := match ttl rss with Some s => s | None => "" end in
  if Py.isdecimal ttl_str then decimal_value ttl_str * 60
  else match WebResponse.max_age wr with
       | Some m => m
       | None => -1
       end.

(** The feed's [ttl] is a string of decimal digits longer than [int]
    reads. *)
Definition oversized_ttl (rss : FeedDict) : bool :=
  let ttl_str := match ttl rss with Some s => s | None => "" end in
  Py.isdecimal ttl_str && Nat.ltb Py.INT_MAX_STR_DIGITS (String.length ttl_str).

(** The strings of a context that the method hands to the date parser: the
    [Date] and [Expires] headers of the response, and the [updated] of the
    feed. *)
Definition date_strings (wr : WebResponse.t) (rss : FeedDict)
  : list (option string) :=
  [Headers.get (WebResponse.headers wr) "Date";
   Headers.get (WebResponse.headers wr) "Expires";
   updated rss].

(** An address as [ipaddress] builds them: within the width of its family. *)
Definition valid_address (a : Ipaddress.address) : Prop :=
  match a with
  | Ipaddress.IPv4Address ip => 0 <= ip < 2 ^ 32
  | Ipaddress.IPv6Address ip => 0 <= ip < 2 ^ 128
  end.

(** The loopback, link-local, private and unique-local ranges, as ranges. *)
Definition private_address (a : Ipaddress.address) : Prop :=
  match a with
  | Ipaddress.IPv4Address ip =>
      Ipaddress.v4 127 0 0 0 <= ip <= Ipaddress.v4 127 255 255 255 \/
      Ipaddress.v4 169 254 0 0 <= ip <= Ipaddress.v4 169 254 255 255 \/
      Ipaddress.v4 10 0 0 0 <= ip <= Ipaddress.v4 10 255 255 255 \/
      Ipaddress.v4 172 16 0 0 <= ip <= Ipaddress.v4 172 31 255 255 \/
      Ipaddress.v4 192 168 0 0 <= ip <= Ipaddress.v4 192 168 255 255
  | Ipaddress.IPv6Address ip =>
      ip = 1 \/
      Ipaddress.v6_high 0xfe80 <= ip < Ipaddress.v6_high 0xfec0 \/
      Ipaddress.v6_high 0xfc00 <= ip < Ipaddress.v6_high 0xfe00
  end.

(** The host name is a configured domain, or ends with a dot and the
    domain. *)
Definition domain_hit (hostname domain : string) : Prop :=
  hostname = domain \/ exists pre, hostname = pre ++ "." ++ domain.

(** ** Inputs for the examples *)

Definition response (h : Headers.t) (clock : Z) : WebResponse.t :=
  WebResponse.mk "https://example.org/feed" "https://example.org/feed"
                 None h 200 (Some "OK") clock.

Definition web_feed (h : Headers.t) (rss : FeedDict) (wr : WebResponse.t)
  : WebFeed.t :=
  WebFeed.mk "https://example.org/feed" "https://example.org/feed"
             None (Some h) 200 (Some "OK") (Some rss) (Some wr).

(** 2015-10-21T07:28:00, in microseconds from 0001-01-01T00:00:00. *)
Definition OCT_21_2015_072800 : Z := 63581009280000000.

(** A response fetched at that instant, fresh for ten minutes. *)
Definition fresh_response : WebResponse.t :=
  response [("Cache-Control", "max-age=600")] OCT_21_2015_072800.

Definition no_feed_hints : FeedDict := mk_feed None None None.

(** A feed of RSSHub, updated one second before the fetch. *)
Definition rsshub_feed (ttl : option string) : FeedDict :=
  mk_feed (Some "RSSHub") (Some "Wed, 21 Oct 2015 07:27:59 GMT") ttl.

(** The edge cache reports a hit, under a key in mixed case. *)
Definition feed_behind_cloudflare : WebFeed.t :=
  web_feed [("CF-Cache-Status", "HIT")] no_feed_hints fresh_response.

(** The edge cache reports a hit, and the origin writes [Expires] in
    ISO 8601 without an offset. *)
Definition feed_with_iso_expires : WebFeed.t :=
  web_feed [("cf-cache-status", "HIT")] no_feed_hints
           (response [("Expires", "2030-01-01T00:00:00")] OCT_21_2015_072800).

(** A feed of RSSHub whose [updated] is in ISO 8601 without an offset. *)
Definition feed_with_iso_updated : WebFeed.t :=
  web_feed [] (mk_feed (Some "RSSHub") (Some "2015-10-21T07:27:59") (Some "10"))
           fresh_response.

(** A feed of RSSHub without [ttl], behind a very long [max-age]. *)
Definition feed_with_huge_max_age : WebFeed.t :=
  web_feed [] (rsshub_feed None)
           (response [("Cache-Control", "max-age=100000000000000000")]
                     OCT_21_2015_072800).

(** A string of 4301 decimal digits whose value is five. *)
Fixpoint zeros (n : nat) : string :=
  match n with
  | O => ""
  | S n' => String "0" (zeros n')
  end.

Definition FIVE_IN_4301_DIGITS : string := zeros 4300 ++ "5".

(** A feed of RSSHub whose [ttl] is that string. *)
Definition feed_with_long_ttl : WebFeed.t :=
  web_feed [] (rsshub_feed (Some FIVE_IN_4301_DIGITS)) fresh_response.

(** A date of RFC 2822 in a year of twenty digits. *)
Definition DATE_IN_A_FAR_YEAR : string :=
  "Wed, 21 Oct 99999999999999999999 07:28:00 GMT".

(** A response dated in the last minute of the year 9999. *)
Definition response_at_end_of_time : WebResponse.t :=
  response [("Date", "Fri, 31 Dec 9999 23:59:30 GMT");
            ("Cache-Control", "max-age=60")] OCT_21_2015_072800.


(** ** Notions for the error value and the cookie jar *)

(** Every character of [s] satisfies [f]. *)
Fixpoint every (f : ascii -> bool) (s : string) : bool :=
  match s with
  | EmptyString => true
  | String c s' => f c && every f s'
  end.

(** The strings of a list that are not empty, joined by [sep]. *)
Definition joined (sep : string) (l : list string) : string :=
  String.concat sep (filter Py.truthy l).

(** The text of a status that is not a number: nothing for [None]. *)
Definition status_text (status : WebError.snip) : string :=
  match status with
  | WebError.Str s => s
  | _ => ""
  end.

Definition cause_name (base_error : option WebError.exception) : string :=
  match base_error with
  | Some b => WebError.type_name b
  | None => ""
  end.

(** The URL as text: nothing for [None]. *)
Definition url_text (url : option string) : string :=
  match url with
  | Some u => u
  | None => ""
  end.

(** One character of the key of an error: small, and no blank. *)
Definition key_char (c : ascii) : ascii :=
  if Ascii.eqb (Py.lower_char c) " " then "_"%char else Py.lower_char c.

Section JarTraces.

Context {A : Aiohttp}.

(** The operations of a cookie jar, and what they answer. *)
Inductive jar_op : Type :=
| UpdateCookies (a : call_args)
| Iter
| Len
| Clear (a : call_args)
| ClearDomain (a : call_args)
| FilterCookies (a : call_args)
| QuoteCookie.

Inductive jar_answer : Type :=
| Returned (v : value)
| Cookies (l : list cookie)
| Length (n : nat)
| Flag (b : bool).

Definition is_update (o : jar_op) : bool :=
  match o with
  | UpdateCookies _ => true
  | _ => false
  end.

Definition returned {S : Type} (r : value * S) : jar_answer * S :=
  (Returned (fst r), snd r).

(** One operation on a [YummyCookieJar]. *)
Definition yummy_step (self : YummyCookieJar.t) (o : jar_op)
  : jar_answer * YummyCookieJar.t :=
  match o with
  | UpdateCookies a => returned (YummyCookieJar.update_cookies self a)
  | Iter => (Cookies (YummyCookieJar.__iter__ self), self)
  | Len => (Length (YummyCookieJar.__len__ self), self)
  | Clear a => returned (YummyCookieJar.clear self a)
  | ClearDomain a => returned (YummyCookieJar.clear_domain self a)
  | FilterCookies a => returned (YummyCookieJar.filter_cookies self a)
  | QuoteCookie => (Flag (YummyCookieJar.quote_cookie self), self)
  end.

(** The same operation on a jar of [aiohttp]. *)
Definition impl_step (I : CookieJarImpl init_args call_args value cookie)
           (j : jar I) (o : jar_op) : jar_answer * jar I :=
  match o with
  | UpdateCookies a => returned (jar_update_cookies I j a)
  | Iter => (Cookies (jar_iter I j), j)
  | Len => (Length (jar_len I j), j)
  | Clear a => returned (jar_clear I j a)
  | ClearDomain a => returned (jar_clear_domain I j a)
  | FilterCookies a => returned (jar_filter_cookies I j a)
  | QuoteCookie => (Flag (jar_quote_cookie I j), j)
  end.

(** A sequence of operations: the answers in order, and the final state. *)
Fixpoint run {S : Type} (step : S -> jar_op -> jar_answer * S) (s : S)
         (ops : list jar_op) : list jar_answer * S :=
  match ops with
  | [] => ([], s)
  | o :: ops' =>
      let (x, s') := step s o in
      let (xs, s'') := run step s' ops' in
      (x :: xs, s'')
  end.

(** No operation of the sequence is [update_cookies]. *)
Definition no_update (ops : list jar_op) : bool :=
  forallb (fun o => negb (is_update o)) ops.

End JarTraces.

(** ** Inputs for the examples, continued *)

(** Jars over lists of numbers: the dummy one keeps nothing, the other one
    appends what it is given. *)
Definition nothing_jar : CookieJarImpl unit (list nat) (list nat) nat :=
  mk_impl unit (list nat) (list nat) nat
          unit (fun _ => tt)
          (fun j _ => ([], j)) (fun _ => []) (fun _ => O)
          (fun j _ => ([], j)) (fun j _ => ([], j)) (fun j _ => ([], j))
          (fun _ => true).

Definition list_jar : CookieJarImpl unit (list nat) (list nat) nat :=
  mk_impl unit (list nat) (list nat) nat
          (list nat) (fun _ => [])
          (fun j a => ([], j ++ a)%list) (fun j => j) (fun j => List.length j)
          (fun j _ => ([], [])) (fun j _ => ([], [])) (fun j _ => (j, j))
          (fun _ => true).

Definition list_jars : Aiohttp := {|
  init_args := unit;
  call_args := list nat;
  value := list nat;
  cookie := nat;
  DummyCookieJar := nothing_jar;
  CookieJar := list_jar
|}.

(** A catalogue that answers with the key itself. *)
Definition echo_catalogue : I18n := {|
  i18n := fun _ key => Ok key
|}.

Definition timeout_error : WebError.exception := WebError.mk_exception "TimeoutError".

Definition quiet : WebError.settings := WebError.mk_settings false 40.

(** A time-out at the gateway, as the constructor builds and logs it. *)
Definition timed_out : WebError.t * WebError.log_record :=
  (WebError.mk "Network timeout" (WebError.Str "504")
               (Some "https://example.org/feed") (Some timeout_error)
               "TimeoutError, 504",
   WebError.mk_log
     10 "Fetch failed (Network timeout, TimeoutError, 504): https://example.org/feed"
     None).

(** A response dated at noon of that day, fresh for an hour. *)
Definition response_at_noon : WebResponse.t :=
  response [("Date", "Wed, 21 Oct 2015 12:00:00 GMT");
            ("Cache-Control", "public, max-age=3600"); ("Age", "120")]
           OCT_21_2015_072800.

(** A response that may not be stored, behind a cache that reports a hit. *)
Definition response_not_to_cache : WebResponse.t :=
  response [("Cache-Control", "private, no-store");
            ("Expires", "Wed, 21 Oct 2065 07:28:00 GMT"); ("Age", "0")]
           OCT_21_2015_072800.

Definition feed_not_to_cache : WebFeed.t :=
  web_feed [("cf-cache-status", "HIT")] (rsshub_feed None) response_not_to_cache.
(** * Facts about the built-ins *)

Section StringFacts.

Lemma append_assoc (a b c : string) : (a ++ b) ++ c = a ++ b ++ c.
Proof. induction a as [|x a IH]; simpl; congruence. Qed.

Lemma length_append (a b : string) :
  String.length (a ++ b) = (String.length a + String.length b)%nat.
Proof. induction a as [|x a IH]; simpl; congruence. Qed.

Lemma append_inv_length (a b c d : string) :
  a ++ b = c ++ d -> String.length a = String.length c -> a = c /\ b = d.
Proof.
  revert c; induction a as [|x a IH]; intros [|y c]; simpl; intros E L;
    try discriminate; auto.
  injection E as -> E. injection L as L.
  destruct (IH _ E L) as [-> ->]; auto.
Qed.

(** When two splittings of a string differ, the longer first half extends
    the shorter one. *)
Lemma append_split (a b c d : string) :
  a ++ b = c ++ d -> (String.length c < String.length a)%nat ->
  exists x m, a = c ++ String x m /\ d = String x m ++ b.
Proof.
  revert c; induction a as [|x a IH]; intros c E L; simpl in *; [lia|].
  destruct c as [|y c]; simpl in *.
  - exists x, a. subst d. auto.
  - injection E as -> E.
    destruct (IH c E ltac:(lia)) as (z & m & -> & ->).
    exists z, m; auto.
Qed.

Lemma prefix_iff (a s : string) :
  prefix a s = true <-> exists r, s = a ++ r.
Proof.
  revert s; induction a as [|x a IH]; intros s; simpl.
  - split; [exists s; reflexivity | destruct s; reflexivity].
  - destruct s as [|y s]; simpl.
    + split; [discriminate | intros [r E]; discriminate].
    + destruct (Ascii.ascii_dec x y) as [->|N].
      * rewrite IH. split; intros [r E]; exists r; congruence.
      * split; [discriminate | intros [r E]; congruence].
Qed.

Lemma drop_append (a r : string) : Py.drop (String.length a) (a ++ r) = r.
Proof. induction a as [|x a IH]; simpl; [destruct r|]; auto. Qed.

Lemma contains_iff (sub s : string) :
  Py.contains sub s = true <-> occurs sub s.
Proof.
  induction s as [|c s IH]; cbn [Py.contains].
  - rewrite orb_false_r, prefix_iff. split.
    + intros [r E]. exists "", r. exact E.
    + intros (a & b & E). destruct a; simpl in E; [exists b; exact E | discriminate].
  - rewrite orb_true_iff, prefix_iff, IH. split.
    + intros [[r E] | (a & b & E)].
      * exists "", r. exact E.
      * exists (String c a), b. simpl. congruence.
    + intros (a & b & E). destruct a as [|x a]; simpl in E.
      * left. exists b. exact E.
      * right. exists a, b. congruence.
Qed.

Lemma not_contains_iff (sub s : string) :
  Py.contains sub s = false <-> ~ occurs sub s.
Proof.
  rewrite <- contains_iff. destruct (Py.contains sub s); split; congruence.
Qed.

Lemma find_some (sep s b a : string) :
  Py.find sep s = Some (b, a) -> first_occurrence sep s b a.
Proof.
  revert b a; induction s as [|c s IH]; intros b a; cbn [Py.find].
  - destruct (prefix sep "") eqn:P; [|discriminate].
    intros [= <- <-]. apply prefix_iff in P as [r E].
    split; [|simpl; lia].
    destruct sep; simpl in *; [subst r; reflexivity | discriminate].
  - destruct (prefix sep (String c s)) eqn:P.
    + intros [= <- <-]. apply prefix_iff in P as [r E].
      split; [|simpl; lia].
      simpl. rewrite E at 1. f_equal. rewrite E. symmetry. apply drop_append.
    + destruct (Py.find sep s) as [[b0 a0]|]; [|discriminate].
      intros [= <- <-]. destruct (IH _ _ eq_refl) as [E M].
      split; [simpl; congruence|].
      intros [|x p] q E'; simpl in E'.
      * assert (prefix sep (String c s) = true) by (apply prefix_iff; eauto).
        congruence.
      * injection E' as -> E'. simpl. apply le_n_S. eapply M; eauto.
Qed.

Lemma find_none (sep s : string) :
  Py.find sep s = None -> ~ occurs sep s.
Proof.
  induction s as [|c s IH]; cbn [Py.find].
  - destruct (prefix sep "") eqn:P; [discriminate|].
    intros _ (a & b & E). destruct a; [|discriminate].
    assert (prefix sep "" = true) by (apply prefix_iff; eauto). congruence.
  - destruct (prefix sep (String c s)) eqn:P; [discriminate|].
    destruct (Py.find sep s) as [[b0 a0]|]; [discriminate|].
    intros _ (a & b & E). destruct a as [|x a]; simpl in E.
    + assert (prefix sep (String c s) = true) by (apply prefix_iff; eauto).
      congruence.
    + injection E as -> E. apply IH; [reflexivity|]. exists a, b; exact E.
Qed.

Lemma first_occurrence_unique (sep s p1 q1 p2 q2 : string) :
  first_occurrence sep s p1 q1 -> first_occurrence sep s p2 q2 ->
  p1 = p2 /\ q1 = q2.
Proof.
  intros [E1 M1] [E2 M2].
  assert (L : String.length p1 = String.length p2).
  { apply Nat.le_antisymm; [eapply M1 | eapply M2]; eauto. }
  rewrite E1 in E2.
  destruct (append_inv_length _ _ _ _ E2 L) as [-> E].
  split; [reflexivity|].
  apply (append_inv_length sep q1 sep q2 E eq_refl).
Qed.

Lemma first_occurrence_find (sep s pre post : string) :
  first_occurrence sep s pre post -> Py.find sep s = Some (pre, post).
Proof.
  intros F. destruct (Py.find sep s) as [[b a]|] eqn:E.
  - destruct (first_occurrence_unique _ _ _ _ _ _ (find_some _ _ _ _ E) F)
      as [-> ->]. reflexivity.
  - exfalso. apply (find_none _ _ E). destruct F as [F _]. exists pre, post; exact F.
Qed.

Lemma partition_first_occurrence (sep s pre post : string) :
  first_occurrence sep s pre post -> Py.partition sep s = (pre, sep, post).
Proof.
  intros F. unfold Py.partition. rewrite (first_occurrence_find _ _ _ _ F).
  reflexivity.
Qed.

Lemma partition_absent (sep s : string) :
  ~ occurs sep s -> Py.partition sep s = (s, "", "").
Proof.
  intros N. unfold Py.partition.
  destruct (Py.find sep s) as [[b a]|] eqn:E; [|reflexivity].
  exfalso. apply N. destruct (find_some _ _ _ _ E) as [F _]. exists b, a; exact F.
Qed.

Lemma partition_upto_comma (post text : string) :
  upto_comma post text -> Py.part0 (Py.partition "," post) = text.
Proof.
  intros [N [-> | [rest ->]]].
  - rewrite (partition_absent _ _ N). reflexivity.
  - rewrite (partition_first_occurrence "," _ text rest); [reflexivity|].
    split; [reflexivity|].
    intros p q E.
    destruct (Nat.le_gt_cases (String.length text) (String.length p)) as [|L];
      [assumption|].
    exfalso. apply N.
    destruct (append_split _ _ _ _ E L) as (x & m & E1 & E2).
    simpl in E2. injection E2 as <- _.
    exists p, m. exact E1.
Qed.

End StringFacts.

(** * The cache-lifetime view *)

Section CacheLifetime.

Import WebResponse.

Lemma truthy_false (s : string) : Py.truthy s = false <-> s = "".
Proof. destruct s; simpl; split; congruence. Qed.

Lemma int_of_opt (s : string) :
  Py.int s = match Py.int_opt s with Some n => Ok n | None => Raise ValueError end.
Proof. reflexivity. Qed.

(** The directive text decides [max_age] once the first two cases are out
    of the way. *)
Lemma max_age_of_text (self : t) (cc text : string) :
  cc = Py.lower (Headers.get_default (headers self) "Cache-Control" "") ->
  cc <> "" -> ~ occurs "no-cache" cc -> ~ occurs "no-store" cc ->
  Py.part0 (Py.partition "," (Py.part2 (Py.partition "max-age=" cc))) = text ->
  max_age self = Py.int_opt text.
Proof.
  intros -> NE N1 N2 T. unfold max_age.
  apply not_contains_iff in N1, N2. rewrite N1, N2, T. simpl.
  destruct (Py.truthy _) eqn:E; [|apply truthy_false in E; contradiction].
  simpl. destruct text as [|c text]; [reflexivity|]. simpl Py.truthy. cbv iota.
  rewrite int_of_opt. destruct (Py.int_opt _); reflexivity.
Qed.

Lemma occurs_nonempty (sub s : string) : occurs sub s -> sub <> "" -> s <> "".
Proof.
  intros (a & b & ->) N E. destruct a; [|discriminate].
  destruct sub; [contradiction | discriminate].
Qed.

Lemma max_age_of_empty (self : t) :
  Py.lower (Headers.get_default (headers self) "Cache-Control" "") = "" ->
  max_age self = None.
Proof. unfold max_age. intros ->. reflexivity. Qed.

(** C3: [max_age] is absent when [Cache-Control] is absent or empty; it is
    [0] when the header, case apart, contains [no-cache] or [no-store];
    otherwise it is the integer written between the first [max-age=] and the
    next comma when that text reads as an integer, and absent when the text
    is empty, does not read as an integer, or there is no [max-age=]. *)
Theorem max_age_spec (self : t) :
  let header := Headers.get (headers self) "Cache-Control" in
  let cc := Py.lower (Headers.get_default (headers self) "Cache-Control" "") in
  ((header = None \/ header = Some "") -> max_age self = None) /\
  (occurs "no-cache" cc \/ occurs "no-store" cc -> max_age self = Some 0) /\
  (~ occurs "no-cache" cc -> ~ occurs "no-store" cc ->
   forall pre post text,
     first_occurrence "max-age=" cc pre post -> upto_comma post text ->
     (forall n, Py.int_opt text = Some n -> max_age self = Some n) /\
     (text = "" \/ Py.int_opt text = None -> max_age self = None)) /\
  (~ occurs "no-cache" cc -> ~ occurs "no-store" cc ->
   ~ occurs "max-age=" cc -> max_age self = None).
Proof.
  intros header cc. split; [|split; [|split]].
  - unfold max_age, Headers.get_default. fold header.
    intros [-> | ->]; reflexivity.
  - intros H. unfold max_age. fold cc.
    assert (NE : cc <> "").
    { destruct H as [H | H]; apply (occurs_nonempty _ _ H); discriminate. }
    destruct (Py.truthy cc) eqn:E; [|apply truthy_false in E; contradiction].
    simpl. destruct H as [H | H]; apply contains_iff in H; rewrite H;
      [reflexivity | rewrite orb_true_r; reflexivity].
  - intros N1 N2 pre post text F U.
    assert (NE : cc <> "").
    { apply (occurs_nonempty "max-age="); [|discriminate].
      destruct F as [F _]. exists pre, post. exact F. }
    assert (M : max_age self = Py.int_opt text).
    { apply (max_age_of_text self cc text eq_refl NE N1 N2).
      rewrite (partition_first_occurrence _ _ _ _ F).
      apply partition_upto_comma, U. }
    rewrite M. split; [auto|]. intros [-> | I]; [reflexivity | exact I].
  - intros N1 N2 N.
    destruct (string_dec cc "") as [E | NE]; [apply max_age_of_empty, E|].
    rewrite (max_age_of_text self cc "" eq_refl NE N1 N2); [reflexivity|].
    rewrite (partition_absent _ _ N). reflexivity.
Qed.

Lemma max_age_spec_witness :
  max_age (response [("Date", "Wed, 21 Oct 2015 07:28:00 GMT")] 0) = None /\
  max_age (response [("Cache-Control", "No-Store")] 0) = Some 0 /\
  max_age (response [("cache-control", "public, Max-Age=120, immutable")] 0)
  = Some 120 /\
  max_age (response [("Cache-Control", "max-age=abc")] 0) = None /\
  max_age (response [("Cache-Control", "public")] 0) = None.
Proof.
  refine (conj _ (conj _ (conj _ (conj _ _)))).
  - apply (proj1 (max_age_spec _)). left. reflexivity.
  - apply (proj1 (proj2 (max_age_spec _))).
    right. apply contains_iff. reflexivity.
  - apply (proj1 (proj2 (proj2 (max_age_spec _))))
      with (pre := "public, ") (post := "120, immutable") (text := "120");
      try (apply not_contains_iff; reflexivity).
    + apply find_some. reflexivity.
    + split; [apply not_contains_iff; reflexivity|].
      right. exists " immutable". reflexivity.
    + reflexivity.
  - apply (proj1 (proj2 (proj2 (max_age_spec _))))
      with (pre := "") (post := "abc") (text := "abc");
      try (apply not_contains_iff; reflexivity).
    + apply find_some. reflexivity.
    + split; [apply not_contains_iff; reflexivity|]. left. reflexivity.
    + right. reflexivity.
  - apply (proj2 (proj2 (proj2 (max_age_spec _))));
      apply not_contains_iff; reflexivity.
Defined.

Lemma age_remaining_of_max_age (self : t) (m : Z) :
  max_age self = Some m ->
  age_remaining self
  = Some (clamp 0 21600 (m - match age self with Some a => a | None => 0 end)).
Proof.
  unfold age_remaining, clamp, or_zero,
    AGE_REMAINING_CLAMP_MIN, AGE_REMAINING_CLAMP_MAX.
  intros ->.
  set (x := m - match age self with Some a => a | None => 0 end).
  destruct (Z.ltb_spec x 0); [f_equal; lia|].
  rewrite Z.gtb_ltb. destruct (Z.ltb_spec 21600 x); f_equal; lia.
Qed.

Lemma age_remaining_bounds (self : t) (r : Z) :
  age_remaining self = Some r -> 0 <= r <= 21600.
Proof.
  destruct (max_age self) as [m|] eqn:M.
  - rewrite (age_remaining_of_max_age _ _ M). unfold clamp. intros [= <-]. lia.
  - unfold age_remaining. rewrite M. discriminate.
Qed.

(** C4: [age_remaining] is absent exactly when [max_age] is; otherwise it is
    [max_age] minus the age (zero when absent) clamped to the closed
    interval from 0 to 21600, so a defined [age_remaining] is never negative
    and never above 21600. *)
Theorem age_remaining_clamped (self : t) :
  (age_remaining self = None <-> max_age self = None) /\
  (forall m, max_age self = Some m ->
             age_remaining self
             = Some (clamp 0 21600
                           (m - match age self with Some a => a | None => 0 end))) /\
  (forall r, age_remaining self = Some r -> 0 <= r <= 21600).
Proof.
  split; [|split; [apply age_remaining_of_max_age | apply age_remaining_bounds]].
  destruct (max_age self) as [m|] eqn:M.
  - rewrite (age_remaining_of_max_age _ _ M). split; discriminate.
  - unfold age_remaining. rewrite M. tauto.
Qed.

Lemma age_remaining_clamped_witness :
  age_remaining (response [("Cache-Control", "max-age=100000"); ("Age", "30")] 0)
  = Some 21600 /\
  age_remaining (response [("Cache-Control", "max-age=60"); ("Age", "90")] 0)
  = Some 0 /\
  age_remaining (response [("Cache-Control", "max-age=600")] 0) = Some 600.
Proof.
  refine (conj _ (conj _ _)).
  - apply (proj1 (proj2 (age_remaining_clamped
                          (response [("Cache-Control", "max-age=100000");
                                     ("Age", "30")] 0))) 100000).
    reflexivity.
  - apply (proj1 (proj2 (age_remaining_clamped
                          (response [("Cache-Control", "max-age=60");
                                     ("Age", "90")] 0))) 60).
    reflexivity.
  - apply (proj1 (proj2 (age_remaining_clamped
                          (response [("Cache-Control", "max-age=600")] 0))) 600).
    reflexivity.
Defined.

(** C10 (as the code has it): there are [Cache-Control] values without a
    max-age directive of their own for which [max_age] is defined, since
    [max-age=] is found by substring search: whatever stands before its
    first occurrence, [x-max-age=600] for one, the digits after it are the
    value. [s-maxage=600] is not such a value: it does not contain
    [max-age=], and its [max_age] is absent. *)
Theorem max_age_substring_search :
  (exists v, has_max_age_directive v = false /\
             max_age (response [("Cache-Control", v)] 0) = Some 600) /\
  (forall self pre,
      let cc := Py.lower (Headers.get_default (headers self) "Cache-Control" "") in
      first_occurrence "max-age=" cc pre "600" ->
      ~ occurs "no-cache" cc -> ~ occurs "no-store" cc ->
      max_age self = Some 600) /\
  has_max_age_directive "s-maxage=600" = false /\
  max_age (response [("Cache-Control", "s-maxage=600")] 0) = None.
Proof.
  split; [exists "x-max-age=600"; split; reflexivity|].
  split; [|split; reflexivity].
  intros self pre cc F N1 N2.
  assert (NE : cc <> "").
  { destruct F as [F _]. rewrite F. destruct pre; discriminate. }
  rewrite (max_age_of_text self cc "600" eq_refl NE N1 N2); [reflexivity|].
  rewrite (partition_first_occurrence _ _ _ _ F). reflexivity.
Qed.

Lemma max_age_substring_search_witness :
  max_age (response [("Cache-Control", "private, X-Max-Age=600")] 0) = Some 600.
Proof.
  apply (proj1 (proj2 max_age_substring_search) _ "private, x-");
    [apply find_some; reflexivity | apply not_contains_iff; reflexivity ..].
Defined.

(** C10, as stated, fails: [s-maxage=600] gives no [max_age]. *)
Lemma max_age_of_s_maxage :
  max_age (response [("Cache-Control", "s-maxage=600")] 0) = None /\
  max_age (response [("Cache-Control", "s-maxage=600")] 0) <> Some 600.
Proof. split; [reflexivity | discriminate]. Qed.

End CacheLifetime.

(** * Dates: parsing and the fields that depend on the clock *)

Section Dates.

Context {L : PyLib}.

Import WebResponse.

Lemma timedelta_small (r : Z) :
  0 <= r <= 21600 -> Datetime.timedelta r = Ok (r * 1000000).
Proof.
  intros B. unfold Datetime.timedelta, Datetime.MAX_DELTA_DAYS, Datetime.US_PER_SECOND.
  replace (r / 86400) with 0 by (symmetry; apply Z.div_small; lia).
  reflexivity.
Qed.


(** The guard of the parser takes a [ValueError] and nothing else. *)
Lemma suppress_ValueError_raises {A : Type} (m : result A) (e : exn) :
  suppress_ValueError m = Raise e -> m = Raise e /\ e <> ValueError.
Proof.
  destruct m as [a|[]]; simpl; try discriminate;
    intros [= <-]; split; (reflexivity || discriminate).
Qed.

(** The parser answers with no value on an absent or empty string;
    otherwise with the RFC 2822 reading, with the ISO 8601 reading when the
    first one raises a [ValueError], and with no value when both do. What
    else a reading raises, the parser raises. *)
Lemma rfc_2822_8601_to_datetime_flow :
  rfc_2822_8601_to_datetime None = Ok None /\
  rfc_2822_8601_to_datetime (Some "") = Ok None /\
  (forall s d, s <> "" -> parsedate_to_datetime s = Ok d ->
               rfc_2822_8601_to_datetime (Some s) = Ok (Some d)) /\
  (forall s, s <> "" -> parsedate_to_datetime s = Raise ValueError ->
             rfc_2822_8601_to_datetime (Some s)
             = (r <- suppress_ValueError (fromisoformat s) ;; Ok r)) /\
  (forall s e, s <> "" -> parsedate_to_datetime s = Raise e -> e <> ValueError ->
               rfc_2822_8601_to_datetime (Some s) = Raise e).
Proof.
  unfold rfc_2822_8601_to_datetime.
  refine (conj eq_refl (conj eq_refl (conj _ (conj _ _)))).
  - intros [|c s] d NE P; [congruence|]. simpl. rewrite P. reflexivity.
  - intros [|c s] NE P; [congruence|]. simpl. rewrite P. cbn [suppress_ValueError bind].
    destruct (suppress_ValueError _) as [[d|]|x]; reflexivity.
  - intros [|c s] e NE P V; [congruence|]. simpl. rewrite P.
    destruct e; try reflexivity. contradiction.
Qed.

(** The parser never raises a [ValueError]. *)
Lemma rfc_2822_8601_to_datetime_raises (t : option string) (e : exn) :
  rfc_2822_8601_to_datetime t = Raise e -> e <> ValueError.
Proof.
  unfold rfc_2822_8601_to_datetime. destruct t as [s|]; [|discriminate].
  destruct (negb _); [discriminate|].
  destruct (suppress_ValueError (parsedate_to_datetime s)) as [[d|]|x] eqn:P;
    cbn [bind]; [discriminate | |].
  - destruct (suppress_ValueError (fromisoformat s)) as [[d|]|x] eqn:I;
      cbn [bind]; try discriminate.
    intros [= <-]. apply (suppress_ValueError_raises _ _ I).
  - intros [= <-]. apply (suppress_ValueError_raises _ _ P).
Qed.

(** C9 (as the code has it): two views over the same headers agree on
    [etag], [max_age], [age] and [age_remaining], which depend on the
    headers alone. [date], [last_modified] and [expires] depend on the
    headers and on the instant [now] of the view: the two views agree on
    them when the [Date] header parses or the instants are equal; they agree
    on [last_modified] also when [Last-Modified] parses, and on [expires]
    also when [age_remaining] is absent or zero. (A header on which the
    parser raises counts with those that parse: the two views then raise
    alike.) *)
Theorem derived_fields_of_headers (v1 v2 : t) :
  headers v1 = headers v2 ->
  (etag v1 = etag v2 /\ max_age v1 = max_age v2 /\ age v1 = age v2 /\
   age_remaining v1 = age_remaining v2) /\
  (rfc_2822_8601_to_datetime (Headers.get (headers v1) "Date") <> Ok None \/
   clock v1 = clock v2 ->
   date v1 = date v2 /\ last_modified v1 = last_modified v2 /\
   expires v1 = expires v2) /\
  (rfc_2822_8601_to_datetime (Headers.get (headers v1) "Last-Modified") <> Ok None ->
   last_modified v1 = last_modified v2) /\
  (age_remaining v1 = None \/ age_remaining v1 = Some 0 ->
   expires v1 = expires v2).
Proof.
  intros E.
  assert (A : age_remaining v1 = age_remaining v2).
  { unfold age_remaining, max_age, age. rewrite E. reflexivity. }
  split; [|split; [|split]].
  - unfold etag, max_age, age. rewrite E. auto.
  - intros D.
    assert (Dt : date v1 = date v2).
    { unfold date, now. rewrite <- E.
      destruct D as [D | ->]; [|reflexivity].
      destruct (rfc_2822_8601_to_datetime _) as [[d|]|x];
        [reflexivity | contradiction | reflexivity]. }
    split; [exact Dt|].
    unfold last_modified, expires. rewrite <- A, <- E, Dt. auto.
  - intros M. unfold last_modified. rewrite <- E.
    destruct (rfc_2822_8601_to_datetime _) as [[d|]|x];
      [reflexivity | contradiction | reflexivity].
  - unfold expires. rewrite <- A, <- E. intros [-> | ->]; reflexivity.
Qed.

End Dates.

(** ** The same, on concrete headers *)

Section DatesExamples.

#[local] Existing Instance Ref.lib.

Import WebResponse.


(** C6 fails on the code. A date in ISO 8601 without an offset, or with a
    zone name the RFC 2822 reading does not know, comes back as a naive
    value, not as a UTC-aware one. A date of RFC 2822 in a year of twenty
    digits makes the first reading raise an [OverflowError]: the guard takes
    a [ValueError] only, so the parser raises, where both readings fail (the
    ISO 8601 reading refuses that string) and no value is due. *)
Theorem rfc_2822_8601_to_datetime_diverges :
  (rfc_2822_8601_to_datetime (Some "2015-10-21T07:28:00")
   = Ok (Some (Datetime.mk OCT_21_2015_072800 None)) /\
   rfc_2822_8601_to_datetime (Some "Wed, 21 Oct 2015 07:28:00 CEST")
   = Ok (Some (Datetime.mk OCT_21_2015_072800 None)) /\
   ~ Datetime.is_utc_aware (Datetime.mk OCT_21_2015_072800 None)) /\
  (parsedate_to_datetime DATE_IN_A_FAR_YEAR = Raise OverflowError /\
   fromisoformat DATE_IN_A_FAR_YEAR = Raise ValueError /\
   rfc_2822_8601_to_datetime (Some DATE_IN_A_FAR_YEAR) = Raise OverflowError).
Proof.
  split; [split; [|split] | split; [|split]];
    try (vm_compute; reflexivity).
  discriminate.
Qed.

(** C9, as stated, fails: without a [Date] header, the same headers read at
    two instants give two dates, and two expiry instants. *)
Lemma derived_fields_depend_on_clock :
  let v1 := response [("Cache-Control", "max-age=60")] OCT_21_2015_072800 in
  let v2 := response [("Cache-Control", "max-age=60")] (OCT_21_2015_072800 + 1) in
  headers v1 = headers v2 /\
  date v1 <> date v2 /\ last_modified v1 <> last_modified v2 /\
  expires v1 <> expires v2.
Proof.
  cbv zeta. split; [reflexivity|].
  split; [|split]; vm_compute; discriminate.
Qed.

Lemma derived_fields_of_headers_witness :
  let h := [("Date", "Wed, 21 Oct 2015 07:28:00 GMT");
            ("Cache-Control", "max-age=60"); ("ETag", "W/abc")] in
  date (response h 0) = date (response h 1000000) /\
  last_modified (response h 0) = last_modified (response h 1000000) /\
  expires (response h 0) = expires (response h 1000000).
Proof.
  cbv zeta.
  apply (proj1 (proj2 (derived_fields_of_headers
                         (response [("Date", "Wed, 21 Oct 2015 07:28:00 GMT");
                                    ("Cache-Control", "max-age=60");
                                    ("ETag", "W/abc")] 0)
                         (response [("Date", "Wed, 21 Oct 2015 07:28:00 GMT");
                                    ("Cache-Control", "max-age=60");
                                    ("ETag", "W/abc")] 1000000)
                         eq_refl))).
  left. vm_compute. discriminate.
Defined.

End DatesExamples.

(** * The next-check heuristic *)

Section Scheduler.

Context {L : PyLib}.

Import WebFeed.

Lemma in_set_iff (status : option string) :
  in_set status CF_CACHE_STATUSES = true <-> cache_status_hit status.
Proof.
  unfold in_set, cache_status_hit. destruct status as [s|].
  - rewrite existsb_exists. split.
    + intros (x & I & E). apply String.eqb_eq in E. subst x. eauto.
    + intros (x & [= <-] & I). exists s. split; [exact I | apply String.eqb_refl].
  - split; [discriminate | intros (x & E & _); discriminate].
Qed.

Lemma digit_not_space (c : ascii) : Py.is_digit c = true -> Py.is_space c = false.
Proof.
  unfold Py.is_digit, Py.is_space. generalize (Py.code c). intros n H.
  apply andb_true_iff in H as [H1 H2].
  apply Nat.leb_le in H1, H2.
  repeat match goal with
         | |- context [Nat.leb ?a ?b] => destruct (Nat.leb_spec a b)
         | |- context [Nat.eqb ?a ?b] => destruct (Nat.eqb_spec a b)
         end; simpl; try reflexivity; lia.
Qed.

Lemma digit_val_nonneg (c : ascii) : Py.is_digit c = true -> 0 <= Py.digit_val c <= 9.
Proof.
  unfold Py.is_digit, Py.digit_val. generalize (Py.code c). intros n H.
  apply andb_true_iff in H as [H1 H2].
  apply Nat.leb_le in H1, H2. lia.
Qed.

Lemma trim_right_digits (s : string) : Py.all_digits s = true -> Py.trim_right s = s.
Proof.
  induction s as [|c s IH]; [reflexivity|]. simpl.
  intros H. apply andb_true_iff in H as [D A].
  rewrite (IH A), (digit_not_space _ D). destruct s; reflexivity.
Qed.

Lemma int_digits_decimal (s : string) (acc : Z) :
  Py.all_digits s = true -> Py.int_digits s acc false = Some (decimal_from s acc).
Proof.
  revert acc; induction s as [|c s IH]; intros acc; [reflexivity|]. simpl.
  intros H. apply andb_true_iff in H as [D A]. rewrite D. apply IH, A.
Qed.

Lemma decimal_from_nonneg (s : string) (acc : Z) :
  Py.all_digits s = true -> 0 <= acc -> 0 <= decimal_from s acc.
Proof.
  revert acc; induction s as [|c s IH]; intros acc; simpl; [auto|].
  intros H. apply andb_true_iff in H as [D A]. intros P.
  apply IH; [exact A|]. pose proof (digit_val_nonneg _ D). lia.
Qed.

Lemma count_digits_all_digits (s : string) :
  Py.all_digits s = true -> Py.count_digits s = String.length s.
Proof.
  induction s as [|c s IH]; [reflexivity|]. simpl.
  intros H. apply andb_true_iff in H as [D A]. rewrite D, (IH A). reflexivity.
Qed.

(** On a string of decimal digits that is not too long, [int] is the
    positional value. *)
Lemma int_isdecimal (s : string) :
  Py.isdecimal s = true -> (String.length s <= Py.INT_MAX_STR_DIGITS)%nat ->
  Py.int s = Ok (decimal_value s) /\ 0 <= decimal_value s.
Proof.
  unfold Py.isdecimal. intros H Len. apply andb_true_iff in H as [T A].
  destruct s as [|c s]; [discriminate|].
  pose proof A as A'. simpl in A'. apply andb_true_iff in A' as [D A'].
  split; [|apply decimal_from_nonneg; [exact A | lia]].
  unfold Py.int, Py.int_opt, Py.trim.
  rewrite (count_digits_all_digits _ A).
  destruct (Nat.ltb_spec Py.INT_MAX_STR_DIGITS (String.length (String c s))); [lia|].
  cbn [Py.trim_left]. rewrite (digit_not_space _ D), (trim_right_digits _ A).
  assert (U : Py.int_unsigned (String c s) = Some (decimal_value (String c s))).
  { unfold Py.int_unsigned. rewrite D. rewrite (int_digits_decimal _ _ A').
    reflexivity. }
  assert (E : match String c s with
              | String "+" d => Py.int_unsigned d
              | String "-" d => option_map Z.opp (Py.int_unsigned d)
              | d => Py.int_unsigned d
              end = Py.int_unsigned (String c s)).
  { clear -D. destruct c as [[] [] [] [] [] [] [] []]; try reflexivity;
      discriminate D. }
  rewrite E, U. reflexivity.
Qed.

(** On a longer one, [int] raises. *)
Lemma int_oversized (s : string) :
  Py.isdecimal s = true -> (Py.INT_MAX_STR_DIGITS < String.length s)%nat ->
  Py.int s = Raise ValueError.
Proof.
  unfold Py.isdecimal. intros H Len. apply andb_true_iff in H as [_ A].
  unfold Py.int, Py.int_opt. rewrite (count_digits_all_digits _ A).
  destruct (Nat.ltb_spec Py.INT_MAX_STR_DIGITS (String.length s)); [reflexivity | lia].
Qed.

Lemma oversized_ttl_false (rss : FeedDict) :
  oversized_ttl rss = false ->
  Py.isdecimal (match ttl rss with Some s => s | None => "" end) = true ->
  (String.length (match ttl rss with Some s => s | None => "" end)
   <= Py.INT_MAX_STR_DIGITS)%nat.
Proof.
  unfold oversized_ttl. intros O D. rewrite D in O. cbn [andb] in O.
  apply Nat.ltb_ge, O.
Qed.

(** The TTL of the code and the TTL of the wording part only where both are
    at most zero, as long as [int] reads the feed's [ttl]. *)
Lemma ttl_in_second_spec (rss : FeedDict) (wr : WebResponse.t) :
  oversized_ttl rss = false ->
  exists t, ttl_in_second rss wr = Ok t /\
            (300 < t <-> 300 < spec_ttl rss wr) /\
            (300 < t -> t = spec_ttl rss wr).
Proof.
  intros O. pose proof (oversized_ttl_false _ O) as Len.
  unfold ttl_in_second, spec_ttl.
  destruct (Py.isdecimal _) eqn:D.
  - destruct (int_isdecimal _ D (Len eq_refl)) as [-> P]. cbn [bind].
    eexists; split; [reflexivity|]. unfold or_minus_one.
    destruct (Z.eqb_spec (decimal_value
                            match ttl rss with Some s => s | None => "" end * 60) 0);
      lia.
  - cbn [bind]. eexists; split; [reflexivity|]. unfold or_minus_one.
    destruct (WebResponse.max_age wr) as [m|]; [|lia].
    destruct (Z.eqb_spec m 0); lia.
Qed.

(** Where it does not, the conversion raises: nothing guards it. *)
Lemma ttl_in_second_oversized (rss : FeedDict) (wr : WebResponse.t) :
  oversized_ttl rss = true -> ttl_in_second rss wr = Raise ValueError.
Proof.
  unfold oversized_ttl, ttl_in_second. intros O.
  apply andb_true_iff in O as [D Len]. apply Nat.ltb_lt in Len.
  rewrite D, (int_oversized _ D Len). reflexivity.
Qed.

Lemma calc_of_rules (self : t) (wr : WebResponse.t) :
  web_response self = Some wr ->
  calc_next_check_as_per_server_side_cache self
  = (r <- edge_cache_rule self wr ;;
     match r with
     | Some e => Ok (Some e)
     | None => feed_ttl_rule self wr
     end).
Proof. unfold calc_next_check_as_per_server_side_cache. intros ->. reflexivity. Qed.

(** C1 (as the code has it): the header map answers for the key
    [cf-cache-status] whatever the case it was stored with. When the value
    under that key is one of HIT, MISS, EXPIRED, REVALIDATED (compared as
    written) and [expires] of the view is defined and strictly after [now],
    the result is that instant; when the value is anything else or missing,
    or [expires] is absent, or [expires] is not strictly after [now], the
    result is that of the feed-TTL rule. *)
Theorem edge_cache_rule_spec (self : t) (wr : WebResponse.t) (h : Headers.t) :
  web_response self = Some wr -> headers self = Some h ->
  let status := Headers.get h "cf-cache-status" in
  let result := calc_next_check_as_per_server_side_cache self in
  (forall k v h', Py.lower k = "cf-cache-status" ->
                  Headers.get ((k, v) :: h') "cf-cache-status" = Some v) /\
  (cache_status_hit status ->
   forall e, WebResponse.expires wr = Ok (Some e) ->
             Datetime.gt e (WebResponse.now wr) = Ok true ->
             result = Ok (Some e)) /\
  (~ cache_status_hit status -> result = feed_ttl_rule self wr) /\
  (cache_status_hit status -> WebResponse.expires wr = Ok None ->
   result = feed_ttl_rule self wr) /\
  (cache_status_hit status ->
   forall e, WebResponse.expires wr = Ok (Some e) ->
             Datetime.gt e (WebResponse.now wr) = Ok false ->
             result = feed_ttl_rule self wr).
Proof.
  intros W H status result. subst result.
  rewrite (calc_of_rules _ _ W). unfold edge_cache_rule. rewrite H. fold status.
  split.
  { intros k v h' K. cbn [Headers.get]. unfold Headers.key_eqb. rewrite K.
    reflexivity. }
  split; [|split; [|split]].
  - intros S e E G. apply in_set_iff in S. rewrite S, E. cbn [bind].
    rewrite G. reflexivity.
  - intros S. destruct (in_set status CF_CACHE_STATUSES) eqn:I.
    + apply in_set_iff in I. contradiction.
    + reflexivity.
  - intros S E. apply in_set_iff in S. rewrite S, E. reflexivity.
  - intros S e E G. apply in_set_iff in S. rewrite S, E. cbn [bind].
    rewrite G. reflexivity.
Qed.

Lemma feed_ttl_rule_unfold (self : t) (wr : WebResponse.t) (rss : FeedDict)
      (updated_str : string) :
  rss_d self = Some rss ->
  generator rss = Some "RSSHub" -> updated rss = Some updated_str ->
  updated_str <> "" ->
  feed_ttl_rule self wr
  = (t0 <- ttl_in_second rss wr ;;
     if t0 >? 300 then
       updated <- rfc_2822_8601_to_datetime (Some updated_str) ;;
       match updated with
       | Some u =>
           n <- Datetime.plus_seconds u t0 ;;
           later <- Datetime.gt n (WebResponse.now wr) ;;
           Ok (if later then Some n else None)
       | None => Ok None
       end
     else Ok None).
Proof.
  intros R G U NE. unfold feed_ttl_rule. rewrite R, G, U.
  destruct updated_str; [contradiction|]. reflexivity.
Qed.

(** The second rule where [int] reads the feed's [ttl]: for a feed whose
    generator is [RSSHub] and which carries an [updated] string, the rule
    returns [updated] plus TTL seconds if and only if the TTL is above 300,
    the [updated] string parses as a date, the sum is a date and it is
    strictly after [now]; with a TTL of at most 300, an [updated] that does
    not parse, or a sum not after [now], it yields no deferral. *)
Lemma feed_ttl_rule_readable (self : t) (wr : WebResponse.t) (rss : FeedDict)
      (updated_str : string) :
  web_response self = Some wr -> rss_d self = Some rss ->
  edge_cache_rule self wr = Ok None ->
  generator rss = Some "RSSHub" -> updated rss = Some updated_str ->
  updated_str <> "" -> oversized_ttl rss = false ->
  let ttl := spec_ttl rss wr in
  let result := calc_next_check_as_per_server_side_cache self in
  (forall r, result = Ok (Some r) <->
             300 < ttl /\
             exists u, rfc_2822_8601_to_datetime (Some updated_str) = Ok (Some u) /\
                       Datetime.plus_seconds u ttl = Ok r /\
                       Datetime.gt r (WebResponse.now wr) = Ok true) /\
  (ttl <= 300 -> result = Ok None) /\
  (rfc_2822_8601_to_datetime (Some updated_str) = Ok None -> result = Ok None) /\
  (forall u r, 300 < ttl ->
               rfc_2822_8601_to_datetime (Some updated_str) = Ok (Some u) ->
               Datetime.plus_seconds u ttl = Ok r ->
               Datetime.gt r (WebResponse.now wr) = Ok false ->
               result = Ok None).
Proof.
  intros W R E G U NE O ttl result. subst result.
  rewrite (calc_of_rules _ _ W), E. cbn [bind].
  destruct (ttl_in_second_spec rss wr O) as (t0 & T & Tiff & Teq).
  fold ttl in Tiff, Teq.
  rewrite (feed_ttl_rule_unfold _ _ _ _ R G U NE), T. cbn [bind].
  rewrite Z.gtb_ltb. destruct (Z.ltb_spec 300 t0) as [Lt | Ge].
  - pose proof (Teq Lt) as ->. clear Teq Tiff T.
    destruct (rfc_2822_8601_to_datetime (Some updated_str)) as [[u|]|x];
      cbn [bind].
    2: { split; [|split; [lia | split; [reflexivity|]]].
         - intros r. split; [discriminate|]. intros (_ & u' & P & _). discriminate.
         - intros u' r _. discriminate. }
    2: { split; [|split; [lia | split; [discriminate|]]].
         - intros r. split; [discriminate|]. intros (_ & u' & P & _). discriminate.
         - intros u' r _. discriminate. }
    destruct (Datetime.plus_seconds u ttl) as [n|x] eqn:P; cbn [bind].
    2: { split; [|split; [lia | split; [discriminate|]]].
         - intros r. split; [discriminate|].
           intros (_ & u' & [= <-] & P' & _). congruence.
         - intros u' r _ [= <-]. congruence. }
    destruct (Datetime.gt n (WebResponse.now wr)) as [[|]|x] eqn:Gt; cbn [bind].
    + split; [|split; [lia | split; [discriminate|]]].
      * intros r. split.
        -- intros [= <-]. split; [exact Lt|]. exists u.
           split; [reflexivity|]. split; [exact P | exact Gt].
        -- intros (_ & u' & [= <-] & P' & _). congruence.
      * intros u' r _ [= <-] P' G'. congruence.
    + split; [|split; [lia | split; [discriminate|]]].
      * intros r. split; [discriminate|].
        intros (_ & u' & [= <-] & P' & G'). congruence.
      * reflexivity.
    + split; [|split; [lia | split; [discriminate|]]].
      * intros r. split; [discriminate|].
        intros (_ & u' & [= <-] & P' & G'). congruence.
      * intros u' r _ [= <-] P' G'. congruence.
  - assert (ttl <= 300) by lia.
    split; [|split; [reflexivity | split; [reflexivity|]]].
    + intros r. split; [discriminate | lia].
    + intros; lia.
Qed.

(** ** Which exceptions the method lets out *)

Lemma gt_now_raises (a : datetime) (wr : WebResponse.t) (e : exn) :
  Datetime.gt a (WebResponse.now wr) = Raise e ->
  e = TypeError /\ Datetime.utcoffset a = None.
Proof.
  unfold Datetime.gt, WebResponse.now, Datetime.now_utc. simpl.
  destruct (Datetime.utcoffset a); [discriminate|]. intros [= <-]. auto.
Qed.

Lemma plus_seconds_raises (d : datetime) (s : Z) (e : exn) :
  Datetime.plus_seconds d s = Raise e -> e = OverflowError.
Proof.
  unfold Datetime.plus_seconds, Datetime.timedelta, Datetime.add.
  destruct (_ >? _); cbn [bind]; [congruence|].
  destruct (_ && _); congruence.
Qed.

Lemma plus_seconds_zone (d n : datetime) (s : Z) :
  Datetime.plus_seconds d s = Ok n -> Datetime.utcoffset n = Datetime.utcoffset d.
Proof.
  unfold Datetime.plus_seconds, Datetime.timedelta, Datetime.add.
  destruct (_ >? _); cbn [bind]; [discriminate|].
  destruct (_ && _); [|discriminate]. intros [= <-]. reflexivity.
Qed.

Lemma date_raises (wr : WebResponse.t) (e : exn) :
  WebResponse.date wr = Raise e ->
  rfc_2822_8601_to_datetime (Headers.get (WebResponse.headers wr) "Date") = Raise e.
Proof.
  unfold WebResponse.date.
  destruct (rfc_2822_8601_to_datetime _) as [[d|]|x]; cbn [bind];
    [discriminate | discriminate | intros [= <-]; reflexivity].
Qed.

Lemma date_naive (wr : WebResponse.t) (d : datetime) :
  WebResponse.date wr = Ok d -> Datetime.utcoffset d = None ->
  rfc_2822_8601_to_datetime (Headers.get (WebResponse.headers wr) "Date")
  = Ok (Some d).
Proof.
  unfold WebResponse.date.
  destruct (rfc_2822_8601_to_datetime _) as [[d0|]|x]; cbn [bind];
    [| | discriminate].
  - intros [= <-] _. reflexivity.
  - intros [= <-]. discriminate.
Qed.

Lemma expires_raises (wr : WebResponse.t) (e : exn) :
  WebResponse.expires wr = Raise e ->
  rfc_2822_8601_to_datetime (Headers.get (WebResponse.headers wr) "Expires")
  = Raise e \/
  rfc_2822_8601_to_datetime (Headers.get (WebResponse.headers wr) "Date")
  = Raise e \/
  (e = OverflowError /\
   exists d r, WebResponse.date wr = Ok d /\
               WebResponse.age_remaining wr = Some r /\
               Datetime.plus_seconds d r = Raise OverflowError).
Proof.
  unfold WebResponse.expires.
  destruct (WebResponse.age_remaining wr) as [r|] eqn:A; [|auto].
  destruct (r <=? 0); [discriminate|].
  destruct (WebResponse.date wr) as [d|x] eqn:D; cbn [bind].
  - destruct (Datetime.plus_seconds d r) eqn:P; cbn [bind]; [discriminate|].
    intros [= <-]. pose proof (plus_seconds_raises _ _ _ P) as ->.
    right. right. split; [reflexivity|]. exists d, r. auto.
  - intros [= <-]. right. left. apply date_raises, D.
Qed.

Lemma expires_naive (wr : WebResponse.t) (d : datetime) :
  WebResponse.expires wr = Ok (Some d) -> Datetime.utcoffset d = None ->
  rfc_2822_8601_to_datetime (Headers.get (WebResponse.headers wr) "Expires")
  = Ok (Some d) \/
  exists d0, rfc_2822_8601_to_datetime (Headers.get (WebResponse.headers wr) "Date")
             = Ok (Some d0) /\ Datetime.utcoffset d0 = None.
Proof.
  unfold WebResponse.expires. destruct (WebResponse.age_remaining wr) as [r|];
    [|auto].
  destruct (r <=? 0); [discriminate|].
  destruct (WebResponse.date wr) as [d0|x] eqn:D; cbn [bind]; [|discriminate].
  destruct (Datetime.plus_seconds d0 r) as [n|x] eqn:P; cbn [bind]; [|discriminate].
  intros [= <-] Z0. rewrite (plus_seconds_zone _ _ _ P) in Z0.
  right. exists d0. split; [apply date_naive; assumption | exact Z0].
Qed.

(** What the second rule raises, and why. *)
Lemma feed_ttl_rule_exceptions (self : t) (wr : WebResponse.t) (rss : FeedDict)
      (e : exn) :
  rss_d self = Some rss -> feed_ttl_rule self wr = Raise e ->
  (e <> ValueError /\
   exists t, In t (date_strings wr rss) /\
             rfc_2822_8601_to_datetime t = Raise e) \/
  (e = ValueError /\ oversized_ttl rss = true) \/
  (e = OverflowError /\
   ((exists d r, WebResponse.date wr = Ok d /\
                 WebResponse.age_remaining wr = Some r /\
                 Datetime.plus_seconds d r = Raise OverflowError) \/
    (exists u d t, updated rss = Some u /\
                   rfc_2822_8601_to_datetime (Some u) = Ok (Some d) /\
                   ttl_in_second rss wr = Ok t /\
                   Datetime.plus_seconds d t = Raise OverflowError))) \/
  (e = TypeError /\
   exists t d, In t (date_strings wr rss) /\
               rfc_2822_8601_to_datetime t = Ok (Some d) /\
               Datetime.utcoffset d = None).
Proof.
  intros R. unfold feed_ttl_rule. rewrite R.
  destruct (generator rss) as [g|]; [|discriminate].
  destruct (updated rss) as [u|] eqn:U; [|discriminate].
  assert (I : In (Some u) (date_strings wr rss)).
  { unfold date_strings. rewrite U. right. right. left. reflexivity. }
  destruct (_ && _); [|discriminate].
  destruct (oversized_ttl rss) eqn:O.
  { rewrite (ttl_in_second_oversized _ wr O). cbn [bind]. intros [= <-].
    right. left. auto. }
  destruct (ttl_in_second_spec rss wr O) as (t0 & T & _). rewrite T. cbn [bind].
  destruct (t0 >? 300); [|discriminate].
  destruct (rfc_2822_8601_to_datetime (Some u)) as [[d|]|x] eqn:D; cbn [bind];
    [| discriminate |].
  - destruct (Datetime.plus_seconds d t0) as [n|x] eqn:P; cbn [bind].
    + destruct (Datetime.gt n (WebResponse.now wr)) as [b|x] eqn:G; cbn [bind];
        [discriminate|].
      intros [= <-]. destruct (gt_now_raises _ _ _ G) as [-> Z0].
      right. right. right. split; [reflexivity|]. exists (Some u), d.
      split; [exact I|]. split; [exact D|].
      rewrite <- (plus_seconds_zone _ _ _ P). exact Z0.
    + intros [= <-]. pose proof (plus_seconds_raises _ _ _ P) as ->.
      right. right. left. split; [reflexivity|]. right. exists u, d, t0. auto.
  - intros [= <-]. left.
    split; [apply (rfc_2822_8601_to_datetime_raises _ _ D)|].
    exists (Some u). auto.
Qed.

(** Besides C7: for a context that has its header map and its feed, what the
    method raises is
    - what the date parser raises on the [Date] header, the [Expires] header
      or the feed's [updated], which is no [ValueError]; or
    - a [ValueError], for a [ttl] of more decimal digits than [int] reads; or
    - an [OverflowError], when [date] plus [age_remaining], or [updated]
      plus the TTL, is out of range; or
    - a [TypeError], when one of those three strings parses to a naive
      date. *)
Theorem next_check_exceptions (self : t) (wr : WebResponse.t) (h : Headers.t)
        (rss : FeedDict) (e : exn) :
  web_response self = Some wr -> headers self = Some h -> rss_d self = Some rss ->
  calc_next_check_as_per_server_side_cache self = Raise e ->
  (e <> ValueError /\
   exists t, In t (date_strings wr rss) /\
             rfc_2822_8601_to_datetime t = Raise e) \/
  (e = ValueError /\ oversized_ttl rss = true) \/
  (e = OverflowError /\
   ((exists d r, WebResponse.date wr = Ok d /\
                 WebResponse.age_remaining wr = Some r /\
                 Datetime.plus_seconds d r = Raise OverflowError) \/
    (exists u d t, updated rss = Some u /\
                   rfc_2822_8601_to_datetime (Some u) = Ok (Some d) /\
                   ttl_in_second rss wr = Ok t /\
                   Datetime.plus_seconds d t = Raise OverflowError))) \/
  (e = TypeError /\
   exists t d, In t (date_strings wr rss) /\
               rfc_2822_8601_to_datetime t = Ok (Some d) /\
               Datetime.utcoffset d = None).
Proof.
  intros W H R. rewrite (calc_of_rules _ _ W).
  unfold edge_cache_rule. rewrite H.
  pose proof (feed_ttl_rule_exceptions self wr rss e R) as Feed.
  assert (ID : In (Headers.get (WebResponse.headers wr) "Date")
                  (date_strings wr rss)) by (left; reflexivity).
  assert (IE : In (Headers.get (WebResponse.headers wr) "Expires")
                  (date_strings wr rss)) by (right; left; reflexivity).
  destruct (in_set _ _); cbn [bind]; [|exact Feed].
  destruct (WebResponse.expires wr) as [[d|]|x] eqn:E; cbn [bind].
  - destruct (Datetime.gt d (WebResponse.now wr)) as [[|]|x] eqn:G; cbn [bind].
    + discriminate.
    + exact Feed.
    + intros [= <-]. destruct (gt_now_raises _ _ _ G) as [-> Z0].
      right. right. right. split; [reflexivity|].
      destruct (expires_naive _ _ E Z0) as [X | (d0 & X & N)].
      * exists (Headers.get (WebResponse.headers wr) "Expires"), d. auto.
      * exists (Headers.get (WebResponse.headers wr) "Date"), d0. auto.
  - exact Feed.
  - intros [= <-].
    destruct (expires_raises _ _ E) as [X | [X | (-> & S)]].
    + left. split; [apply (rfc_2822_8601_to_datetime_raises _ _ X)|].
      exists (Headers.get (WebResponse.headers wr) "Expires"). auto.
    + left. split; [apply (rfc_2822_8601_to_datetime_raises _ _ X)|].
      exists (Headers.get (WebResponse.headers wr) "Date"). auto.
    + right. right. left. split; [reflexivity | left; exact S].
Qed.

End Scheduler.

(** * The proxy-bypass predicate *)

Section Networks.

(** Masking with the net mask of a [w]-bit family keeps the bits from [k]
    upwards. *)
Lemma land_shifted_ones (w k ip : Z) :
  0 <= k <= w -> 0 <= ip < 2 ^ w ->
  Z.land ip (Z.shiftl (Z.ones (w - k)) k) = 2 ^ k * (ip / 2 ^ k).
Proof.
  intros K B.
  rewrite Z.mul_comm, <- Z.shiftr_div_pow2, <- Z.shiftl_mul_pow2 by lia.
  apply Z.bits_inj'. intros i Hi.
  rewrite Z.land_spec, !Z.shiftl_spec by lia.
  destruct (Z.lt_ge_cases i k) as [Lo | Hi'].
  - rewrite !(Z.testbit_neg_r _ (i - k)) by lia. apply andb_false_r.
  - rewrite Z.shiftr_spec by lia. replace (i - k + k) with i by lia.
    destruct (Z.lt_ge_cases i w) as [In | Out].
    + rewrite Z.ones_spec_low by lia. apply andb_true_r.
    + rewrite Z.ones_spec_high by lia. rewrite andb_false_r. symmetry.
      rewrite <- (Z.mod_small ip (2 ^ w)) by lia.
      rewrite <- Z.land_ones by lia.
      rewrite Z.land_spec, Z.ones_spec_high by lia. apply andb_false_r.
Qed.

(** A network of prefix [w - k] holds the addresses from its base to its
    base plus [2 ^ k], the latter left out. *)
Lemma land_mask_range (w k b ip : Z) :
  0 <= k <= w -> 0 <= ip < 2 ^ w ->
  (Z.land ip (Z.shiftl (Z.ones (w - k)) k) =? 2 ^ k * b) = true
  <-> 2 ^ k * b <= ip < 2 ^ k * b + 2 ^ k.
Proof.
  intros K B. rewrite (land_shifted_ones w k ip K B), Z.eqb_eq.
  assert (P : 0 < 2 ^ k) by (apply Z.pow_pos_nonneg; lia).
  pose proof (Z.div_mod ip (2 ^ k) ltac:(lia)) as D.
  pose proof (Z.mod_pos_bound ip (2 ^ k) P) as M.
  split; intros H; [nia|].
  f_equal. symmetry. apply (Z.div_unique ip (2 ^ k) b (ip - 2 ^ k * b)); lia.
Qed.

Lemma is_private_iff (a : Ipaddress.address) :
  valid_address a -> (is_private a = true <-> private_address a).
Proof.
  destruct a as [ip | ip]; intros V; simpl in V;
    unfold is_private, PRIVATE_NETWORKS, private_address;
    cbn [existsb Ipaddress.contains Ipaddress.version Ipaddress.network_address
         Ipaddress.prefixlen Z.eqb negb Pos.eqb];
    rewrite ?orb_false_l, ?orb_false_r, ?orb_true_iff.
  - pose proof (land_mask_range 32 24 127 ip ltac:(lia) V) as R1.
    pose proof (land_mask_range 32 16 (169 * 256 + 254) ip ltac:(lia) V) as R2.
    pose proof (land_mask_range 32 24 10 ip ltac:(lia) V) as R3.
    pose proof (land_mask_range 32 20 (172 * 16 + 1) ip ltac:(lia) V) as R4.
    pose proof (land_mask_range 32 16 (192 * 256 + 168) ip ltac:(lia) V) as R5.
    change (Z.land ip (Ipaddress.netmask (Ipaddress.mk_network 4 (Ipaddress.v4 127 0 0 0) 8))
            =? Ipaddress.v4 127 0 0 0)
      with (Z.land ip (Z.shiftl (Z.ones (32 - 24)) 24) =? 2 ^ 24 * 127).
    change (Z.land ip (Ipaddress.netmask (Ipaddress.mk_network 4 (Ipaddress.v4 169 254 0 0) 16))
            =? Ipaddress.v4 169 254 0 0)
      with (Z.land ip (Z.shiftl (Z.ones (32 - 16)) 16) =? 2 ^ 16 * (169 * 256 + 254)).
    change (Z.land ip (Ipaddress.netmask (Ipaddress.mk_network 4 (Ipaddress.v4 10 0 0 0) 8))
            =? Ipaddress.v4 10 0 0 0)
      with (Z.land ip (Z.shiftl (Z.ones (32 - 24)) 24) =? 2 ^ 24 * 10).
    change (Z.land ip (Ipaddress.netmask (Ipaddress.mk_network 4 (Ipaddress.v4 172 16 0 0) 12))
            =? Ipaddress.v4 172 16 0 0)
      with (Z.land ip (Z.shiftl (Z.ones (32 - 20)) 20) =? 2 ^ 20 * (172 * 16 + 1)).
    change (Z.land ip (Ipaddress.netmask (Ipaddress.mk_network 4 (Ipaddress.v4 192 168 0 0) 16))
            =? Ipaddress.v4 192 168 0 0)
      with (Z.land ip (Z.shiftl (Z.ones (32 - 16)) 16) =? 2 ^ 16 * (192 * 256 + 168)).
    rewrite R1, R2, R3, R4, R5.
    change (Ipaddress.v4 127 0 0 0) with 2130706432.
    change (Ipaddress.v4 127 255 255 255) with 2147483647.
    change (Ipaddress.v4 169 254 0 0) with 2851995648.
    change (Ipaddress.v4 169 254 255 255) with 2852061183.
    change (Ipaddress.v4 10 0 0 0) with 167772160.
    change (Ipaddress.v4 10 255 255 255) with 184549375.
    change (Ipaddress.v4 172 16 0 0) with 2886729728.
    change (Ipaddress.v4 172 31 255 255) with 2887778303.
    change (Ipaddress.v4 192 168 0 0) with 3232235520.
    change (Ipaddress.v4 192 168 255 255) with 3232301055.
    lia.
  - pose proof (land_mask_range 128 0 1 ip ltac:(lia) V) as R1.
    pose proof (land_mask_range 128 118 1018 ip ltac:(lia) V) as R2.
    pose proof (land_mask_range 128 121 126 ip ltac:(lia) V) as R3.
    change (Z.land ip (Ipaddress.netmask (Ipaddress.mk_network 6 1 128)) =? 1)
      with (Z.land ip (Z.shiftl (Z.ones (128 - 0)) 0) =? 2 ^ 0 * 1).
    change (Z.land ip (Ipaddress.netmask
                         (Ipaddress.mk_network 6 (Ipaddress.v6_high 65152) 10))
            =? Ipaddress.v6_high 65152)
      with (Z.land ip (Z.shiftl (Z.ones (128 - 118)) 118) =? 2 ^ 118 * 1018).
    change (Z.land ip (Ipaddress.netmask
                         (Ipaddress.mk_network 6 (Ipaddress.v6_high 64512) 7))
            =? Ipaddress.v6_high 64512)
      with (Z.land ip (Z.shiftl (Z.ones (128 - 121)) 121) =? 2 ^ 121 * 126).
    rewrite R1, R2, R3.
    change (Ipaddress.v6_high 65152) with (2 ^ 118 * 1018).
    change (Ipaddress.v6_high 65216) with (2 ^ 118 * 1018 + 2 ^ 118).
    change (Ipaddress.v6_high 64512) with (2 ^ 121 * 126).
    change (Ipaddress.v6_high 65024) with (2 ^ 121 * 126 + 2 ^ 121).
    change (2 ^ 0 * 1) with 1. change (2 ^ 0) with 1.
    lia.
Qed.

End Networks.

Section Proxy.

Context {L : PyLib}.

Lemma endswith_iff (s suffix : string) :
  Py.endswith s suffix = true <-> exists pre, s = pre ++ suffix.
Proof.
  induction s as [|c s IH]; cbn [Py.endswith].
  - rewrite orb_false_r, String.eqb_eq. split.
    + intros <-. exists "". reflexivity.
    + intros [[|x pre] E]; simpl in E; [exact E | discriminate].
  - rewrite orb_true_iff, String.eqb_eq, IH. split.
    + intros [<- | [pre ->]]; [exists ""; reflexivity|].
      exists (String c pre). reflexivity.
    + intros [[|x pre] E]; simpl in E; [left; exact E|].
      injection E as <- ->. right. exists pre. reflexivity.
Qed.

Lemma last_char (s : string) :
  s <> "" -> exists p c, s = p ++ String c "".
Proof.
  induction s as [|x s IH]; [congruence|]. intros _.
  destruct s as [|y s].
  - exists "", x. reflexivity.
  - destruct (IH ltac:(discriminate)) as (p & c & ->).
    exists (String x p), c. reflexivity.
Qed.

Lemma get_append (p r : string) (c : ascii) :
  String.get (String.length p) (p ++ String c r) = Some c.
Proof. induction p as [|x p IH]; simpl; auto. Qed.

(** The test of the generator is the domain rule, and it never raises. *)
Lemma domain_matches_spec (hostname domain : string) :
  exists b, domain_matches hostname domain = Ok b /\
            (b = true <-> domain_hit hostname domain).
Proof.
  unfold domain_matches, domain_hit.
  destruct (Py.endswith hostname domain) eqn:E.
  - apply endswith_iff in E as [pre E].
    destruct (String.eqb_spec hostname domain) as [Q | Q].
    + exists true. split; [reflexivity | tauto].
    + assert (NE : pre <> "") by (intros ->; apply Q; exact E).
      destruct (last_char pre NE) as (p & c & ->).
      rewrite append_assoc in E. cbn [append] in E.
      assert (Len : String.length hostname
                    = (String.length p + S (String.length domain))%nat).
      { rewrite E, length_append. reflexivity. }
      unfold Py.index_from_end.
      destruct (Nat.ltb_spec (String.length hostname) (String.length domain + 1));
        [lia|].
      replace (String.length hostname - (String.length domain + 1))%nat
        with (String.length p) by lia.
      assert (Gt : String.get (String.length p) hostname = Some c)
        by (rewrite E; apply get_append).
      rewrite Gt. cbn [bind].
      exists (Ascii.eqb c "."). split; [reflexivity|].
      rewrite Ascii.eqb_eq. split.
      * intros ->. right. exists p. exact E.
      * intros [-> | [pre' E']]; [congruence|].
        rewrite E in E'. cbn [append] in E'.
        apply append_inv_length in E' as [_ E'].
        -- injection E' as ->. reflexivity.
        -- apply (f_equal String.length) in E'.
           rewrite !length_append in E'. simpl in E'. lia.
  - exists false. split; [reflexivity|]. split; [discriminate|].
    intros H. assert (Py.endswith hostname domain = true); [|congruence].
    apply endswith_iff. destruct H as [-> | [pre ->]].
    + exists "". reflexivity.
    + exists (pre ++ "."). rewrite append_assoc. reflexivity.
Qed.

Lemma any_spec {A : Type} (f : A -> result bool) (P : A -> Prop) (l : list A) :
  (forall x, exists b, f x = Ok b /\ (b = true <-> P x)) ->
  exists b, Py.any f l = Ok b /\ (b = true <-> exists x, In x l /\ P x).
Proof.
  intros F. induction l as [|x l (b & IH & I)]; cbn [Py.any].
  - exists false. split; [reflexivity|]. split; [discriminate|].
    intros (x & [] & _).
  - destruct (F x) as (bx & -> & Px). cbn [bind]. destruct bx.
    + exists true. split; [reflexivity|]. split; [|reflexivity].
      intros _. exists x. split; [left; reflexivity | apply Px; reflexivity].
    + exists b. split; [exact IH|]. rewrite I. split.
      * intros (y & In' & Py). exists y. split; [right; exact In' | exact Py].
      * intros (y & [<- | In'] & Py); [|eauto].
        apply Px in Py. discriminate.
Qed.

Lemma nonempty_false {A : Type} (l : list A) : nonempty l = false <-> l = [].
Proof. destruct l; simpl; split; congruence. Qed.

(** C8: with neither setting configured the answer is to go through the
    proxy. Otherwise, for the host name of the request: when the private
    setting is on and the host name is a literal address of a loopback,
    link-local, private or unique-local range the answer is to bypass; an
    address outside these ranges does not trigger that rule; when domains
    are configured the answer is to bypass exactly when, besides, the host
    name is one of them or ends with a dot followed by one of them; in every
    other case the answer is to go through the proxy. *)
Theorem proxy_filter_spec (env : Env) (url : string) (parse : bool) :
  (PROXY_BYPASS_PRIVATE env = false -> PROXY_BYPASS_DOMAINS env = [] ->
   proxy_filter env url parse = Ok true) /\
  (forall hostname,
      (if parse then urlparse_hostname url else Ok (Some url)) = Ok (Some hostname) ->
      let private_ip :=
        exists a, ip_address hostname = Some a /\ is_private a = true in
      let configured_domain :=
        exists d, In d (PROXY_BYPASS_DOMAINS env) /\ domain_hit hostname d in
      (PROXY_BYPASS_PRIVATE env = true -> private_ip ->
       proxy_filter env url parse = Ok false) /\
      (~ (PROXY_BYPASS_PRIVATE env = true /\ private_ip) ->
       (proxy_filter env url parse = Ok false <-> configured_domain)) /\
      (proxy_filter env url parse = Ok false <->
       (PROXY_BYPASS_PRIVATE env = true /\ private_ip) \/ configured_domain) /\
      (proxy_filter env url parse = Ok true <->
       ~ ((PROXY_BYPASS_PRIVATE env = true /\ private_ip) \/ configured_domain))) /\
  (forall a, valid_address a -> (is_private a = true <-> private_address a)).
Proof.
  split; [|split; [|exact is_private_iff]].
  { intros P D. unfold proxy_filter. rewrite P, D. reflexivity. }
  intros hostname Hn private_ip configured_domain.
  assert (Hit : private_hit (Some hostname) = true <-> private_ip).
  { unfold private_hit, private_ip. destruct (ip_address hostname) as [a|].
    - split; [eauto | intros (a' & [= <-] & I); exact I].
    - split; [discriminate | intros (a' & E & _); discriminate]. }
  destruct (any_spec (domain_matches hostname) (domain_hit hostname)
                     (PROXY_BYPASS_DOMAINS env) (domain_matches_spec hostname))
    as (b & A & B).
  fold configured_domain in B.
  assert (Empty : PROXY_BYPASS_DOMAINS env = [] -> ~ configured_domain).
  { intros E (d & I & _). rewrite E in I. exact I. }
  assert (R : proxy_filter env url parse
              = Ok (negb ((PROXY_BYPASS_PRIVATE env && private_hit (Some hostname))
                          || (nonempty (PROXY_BYPASS_DOMAINS env) && b)))).
  { unfold proxy_filter. rewrite Hn. cbn [bind].
    destruct (PROXY_BYPASS_PRIVATE env); cbn [orb andb negb].
    - destruct (private_hit (Some hostname)); [reflexivity|].
      destruct (nonempty (PROXY_BYPASS_DOMAINS env)); [|reflexivity].
      rewrite A. reflexivity.
    - destruct (nonempty (PROXY_BYPASS_DOMAINS env)); [|reflexivity].
      cbn [negb]. rewrite A. reflexivity. }
  assert (Dom : nonempty (PROXY_BYPASS_DOMAINS env) && b = true <-> configured_domain).
  { destruct (nonempty (PROXY_BYPASS_DOMAINS env)) eqn:N; cbn [andb]; [exact B|].
    apply nonempty_false in N. split; [discriminate | intros C; destruct (Empty N C)]. }
  assert (Priv : PROXY_BYPASS_PRIVATE env && private_hit (Some hostname) = true
                 <-> PROXY_BYPASS_PRIVATE env = true /\ private_ip).
  { rewrite andb_true_iff, Hit. reflexivity. }
  assert (Main : proxy_filter env url parse = Ok false <->
                 (PROXY_BYPASS_PRIVATE env = true /\ private_ip) \/ configured_domain).
  { rewrite R, <- Priv, <- Dom, <- orb_true_iff.
    destruct (_ || _); cbn [negb]; split; congruence. }
  split; [|split; [|split]].
  - intros P I. apply Main. left. split; assumption.
  - intros N. rewrite Main. tauto.
  - exact Main.
  - rewrite <- Main, R. destruct (negb _); split; congruence.
Qed.

(** Besides C7: the predicate lets out only what [urlparse] raises, or an
    [AttributeError] when the URL has no host name while domains are
    configured; given a bare host name it always answers. *)
Theorem proxy_filter_exceptions (env : Env) (url : string) (parse : bool) (e : exn) :
  proxy_filter env url parse = Raise e ->
  parse = true /\
  (urlparse_hostname url = Raise e \/
   (e = AttributeError /\ urlparse_hostname url = Ok None /\
    PROXY_BYPASS_DOMAINS env <> [])).
Proof.
  unfold proxy_filter. destruct (negb _); [discriminate|].
  assert (Named : forall hn,
             (if PROXY_BYPASS_PRIVATE env && private_hit (Some hn) then Ok false
              else if nonempty (PROXY_BYPASS_DOMAINS env) then
                     is_bypassed <- Py.any (domain_matches hn)
                                           (PROXY_BYPASS_DOMAINS env) ;;
                     Ok (negb is_bypassed)
                   else Ok true) <> Raise e).
  { intros hn. destruct (_ && _); [discriminate|].
    destruct (nonempty _); [|discriminate].
    destruct (any_spec (domain_matches hn) (domain_hit hn)
                       (PROXY_BYPASS_DOMAINS env) (domain_matches_spec hn))
      as (b & -> & _).
    discriminate. }
  destruct parse; cbn [bind]; [|intros H; destruct (Named _ H)].
  destruct (urlparse_hostname url) as [[hn|]|x]; cbn [bind]; intros H.
  - destruct (Named _ H).
  - split; [reflexivity|]. right.
    destruct (PROXY_BYPASS_PRIVATE env && private_hit None); [discriminate|].
    destruct (PROXY_BYPASS_DOMAINS env); [discriminate|].
    injection H as <-. repeat split. discriminate.
  - injection H as <-. split; [reflexivity|]. left. reflexivity.
Qed.

End Proxy.

(** * The heuristic and the predicate on concrete inputs *)

Section Examples.

#[local] Existing Instance Ref.lib.

Import WebFeed.

(** C1, as stated, fails: the key is looked up without regard to case.
    Under the key as written there is no cache status, so the rule as stated
    would pass to the feed-TTL rule, which gives nothing here; the method
    returns the expiry instant. *)
Lemma cache_status_key_ignores_case :
  get_exact [("CF-Cache-Status", "HIT")] "cf-cache-status" = None /\
  headers feed_behind_cloudflare = Some [("CF-Cache-Status", "HIT")] /\
  calc_next_check_as_per_server_side_cache feed_behind_cloudflare
  = Ok (Some (Datetime.mk (OCT_21_2015_072800 + 600 * 1000000) (Some 0))) /\
  feed_ttl_rule feed_behind_cloudflare fresh_response = Ok None.
Proof. repeat split. Qed.

Lemma edge_cache_rule_spec_witness :
  calc_next_check_as_per_server_side_cache feed_behind_cloudflare
  = Ok (Some (Datetime.mk (OCT_21_2015_072800 + 600 * 1000000) (Some 0))).
Proof.
  apply (proj1 (proj2 (edge_cache_rule_spec feed_behind_cloudflare fresh_response
                         [("CF-Cache-Status", "HIT")] eq_refl eq_refl))).
  - exists "HIT". split; [reflexivity | left; reflexivity].
  - reflexivity.
  - reflexivity.
Defined.

(** C2 fails on the code: the second rule raises where the wording has it
    return [updated] plus the TTL or yield no deferral. With an [updated] in
    ISO 8601 without an offset and a [ttl] of ten minutes, the TTL is 600,
    [updated] parses and the sum is a date, yet the comparison with [now]
    is a [TypeError]. With a [ttl] of 4301 digits whose value is five, the
    TTL is 300, not above the floor, yet [int] refuses the string with a
    [ValueError] that nothing catches. With no [ttl] and a [max-age] beyond
    the range of [timedelta], [updated] parses, yet the sum is an
    [OverflowError]. *)
Theorem feed_ttl_rule_raises :
  (spec_ttl (mk_feed (Some "RSSHub") (Some "2015-10-21T07:27:59") (Some "10"))
            fresh_response = 600 /\
   rfc_2822_8601_to_datetime (Some "2015-10-21T07:27:59")
   = Ok (Some (Datetime.mk (OCT_21_2015_072800 - 1000000) None)) /\
   Datetime.plus_seconds (Datetime.mk (OCT_21_2015_072800 - 1000000) None) 600
   = Ok (Datetime.mk (OCT_21_2015_072800 + 599 * 1000000) None) /\
   edge_cache_rule feed_with_iso_updated fresh_response = Ok None /\
   calc_next_check_as_per_server_side_cache feed_with_iso_updated
   = Raise TypeError) /\
  (Py.isdecimal FIVE_IN_4301_DIGITS = true /\
   decimal_value FIVE_IN_4301_DIGITS = 5 /\
   spec_ttl (rsshub_feed (Some FIVE_IN_4301_DIGITS)) fresh_response = 300 /\
   edge_cache_rule feed_with_long_ttl fresh_response = Ok None /\
   calc_next_check_as_per_server_side_cache feed_with_long_ttl
   = Raise ValueError) /\
  (spec_ttl (rsshub_feed None)
            (response [("Cache-Control", "max-age=100000000000000000")]
                      OCT_21_2015_072800) = 100000000000000000 /\
   rfc_2822_8601_to_datetime (Some "Wed, 21 Oct 2015 07:27:59 GMT")
   = Ok (Some (Datetime.mk (OCT_21_2015_072800 - 1000000) (Some 0))) /\
   calc_next_check_as_per_server_side_cache feed_with_huge_max_age
   = Raise OverflowError).
Proof.
  repeat match goal with |- _ /\ _ => split end; vm_compute; reflexivity.
Qed.

(** C7 fails on the code: the operations raise on inputs they can receive.
    A date without an offset parses to a naive value, and its comparison
    with [now] is a [TypeError], in the first rule and in the second; a
    [max-age] beyond the range of [timedelta], or a [Date] at the end of the
    calendar, is an [OverflowError]; and a URL without a host has no host
    name to test against the configured domains, an [AttributeError]. *)
Theorem next_check_raises :
  calc_next_check_as_per_server_side_cache feed_with_iso_expires = Raise TypeError /\
  calc_next_check_as_per_server_side_cache feed_with_iso_updated = Raise TypeError /\
  calc_next_check_as_per_server_side_cache feed_with_huge_max_age
  = Raise OverflowError /\
  WebResponse.expires response_at_end_of_time = Raise OverflowError /\
  proxy_filter (mk_env false ["example.com"]) "mailto:someone@example.com" true
  = Raise AttributeError.
Proof. repeat split. Qed.

Lemma next_check_exceptions_witness :
  let wr := response [("Expires", "2030-01-01T00:00:00")] OCT_21_2015_072800 in
  exists t d, In t (date_strings wr no_feed_hints) /\
              rfc_2822_8601_to_datetime t = Ok (Some d) /\
              Datetime.utcoffset d = None.
Proof.
  cbv zeta.
  assert (E : calc_next_check_as_per_server_side_cache feed_with_iso_expires
              = Raise TypeError) by reflexivity.
  destruct (next_check_exceptions
              feed_with_iso_expires
              (response [("Expires", "2030-01-01T00:00:00")] OCT_21_2015_072800)
              [("cf-cache-status", "HIT")] no_feed_hints TypeError
              eq_refl eq_refl eq_refl E)
    as [(_ & t & I & X) | [[X _] | [[X _] | [_ N]]]].
  - exfalso. destruct I as [<- | [<- | [<- | []]]]; vm_compute in X; discriminate X.
  - discriminate X.
  - discriminate X.
  - exact N.
Defined.

Lemma not_domain_hit (hostname domain : string) :
  domain_matches hostname domain = Ok false -> ~ domain_hit hostname domain.
Proof.
  intros E H. destruct (domain_matches_spec hostname domain) as (b & E' & I).
  apply I in H. congruence.
Qed.

Lemma proxy_filter_spec_witness :
  proxy_filter (mk_env true []) "127.0.0.1" false = Ok false /\
  proxy_filter (mk_env true []) "8.8.8.8" false = Ok true /\
  proxy_filter (mk_env false ["example.com"]) "http://sub.example.com/feed" true
  = Ok false /\
  proxy_filter (mk_env false ["example.com"]) "http://notexample.com/feed" true
  = Ok true.
Proof.
  refine (conj _ (conj _ (conj _ _))).
  - apply (proj1 (proj1 (proj2 (proxy_filter_spec (mk_env true []) "127.0.0.1" false))
                        "127.0.0.1" eq_refl));
      [reflexivity|].
    eexists. split; reflexivity.
  - apply (proj2 (proj2 (proj2 (proj1 (proj2 (proxy_filter_spec
                                               (mk_env true []) "8.8.8.8" false))
                                      "8.8.8.8" eq_refl)))).
    intros [[_ (a & [= <-] & P)] | (d & [] & _)]. discriminate P.
  - assert (E : urlparse_hostname "http://sub.example.com/feed"
                = Ok (Some "sub.example.com")) by reflexivity.
    apply (proj1 (proj2 (proj2 (proj1 (proj2 (proxy_filter_spec
                                               (mk_env false ["example.com"])
                                               "http://sub.example.com/feed" true))
                                      "sub.example.com" E)))).
    right. exists "example.com". split; [left; reflexivity|].
    right. exists "sub". reflexivity.
  - assert (E : urlparse_hostname "http://notexample.com/feed"
                = Ok (Some "notexample.com")) by reflexivity.
    apply (proj2 (proj2 (proj2 (proj1 (proj2 (proxy_filter_spec
                                               (mk_env false ["example.com"])
                                               "http://notexample.com/feed" true))
                                      "notexample.com" E)))).
    intros [[P _] | (d & [<- | []] & H)]; [discriminate P|].
    revert H. apply not_domain_hit. reflexivity.
Defined.

Lemma proxy_filter_exceptions_witness :
  urlparse_hostname "mailto:someone@example.com" = Ok None.
Proof.
  assert (E : proxy_filter (mk_env false ["example.com"])
                           "mailto:someone@example.com" true
              = Raise AttributeError) by reflexivity.
  destruct (proxy_filter_exceptions _ _ _ _ E) as [_ [R | [_ [N _]]]].
  - discriminate R.
  - exact N.
Defined.

End Examples.

(** * The error value *)

Section ErrorValue.

Import WebError.

Lemma append_empty_r (s : string) : s ++ "" = s.
Proof. induction s as [|c s IH]; simpl; congruence. Qed.

Lemma join_strings (sep : string) (l : list string) :
  join sep (map Str l) = Ok (String.concat sep l).
Proof.
  induction l as [|s l IH]; [reflexivity|].
  destruct l as [|s' l]; [reflexivity|].
  change (join sep (map Str (s :: s' :: l)))
    with (r <- join sep (map Str (s' :: l)) ;; Ok (s ++ sep ++ r)).
  rewrite IH. reflexivity.
Qed.

(** Items that are strings or [None]: the empty ones leave no separator. *)
Lemma join_snips_strings (sep : string) (l : list (option string)) :
  _join_snips sep (map of_option l)
  = Ok (joined sep (map (fun x => match x with Some s => s | None => "" end) l)).
Proof.
  unfold _join_snips, joined.
  rewrite <- join_strings. f_equal.
  induction l as [|[s|] l IH]; simpl; [reflexivity| |exact IH].
  destruct (Py.truthy s); simpl; congruence.
Qed.

(** The detail, when the status is not a number other than zero. *)
Lemma detail_value (status : snip) (base_error : option exception) :
  (forall n, status = Int n -> n = 0) ->
  _join_snips ", "
    [ match base_error with Some b => Str (type_name b) | None => NoneSnip end;
      status ]
  = Ok (joined ", " [cause_name base_error; status_text status]).
Proof.
  intros N. destruct status as [|s|n].
  - destruct base_error as [[[|c T]]|]; reflexivity.
  - destruct base_error as [[[|c T]]|]; destruct s; reflexivity.
  - rewrite (N n eq_refl). destruct base_error as [[[|c T]]|]; reflexivity.
Qed.

(** What [__init__] builds and logs, when the status is not a number other
    than zero. *)
Lemma init_value (cfg : settings) (name : string) (status : snip)
      (url : option string) (base_error : option exception) (log_level : Z) :
  (forall n, status = Int n -> n = 0) ->
  let detail := joined ", " [cause_name base_error; status_text status] in
  init cfg name status url base_error log_level
  = Ok (mk name status url base_error detail,
        mk_log log_level
               (joined ": " ["Fetch failed (" ++ joined ", " [name; detail] ++ ")";
                             url_text url])
               (if (log_level >=? ERROR cfg) || DEBUG cfg then base_error else None)).
Proof.
  intros N detail. unfold init. rewrite (detail_value _ _ N). cbn [bind].
  fold detail.
  change [Str name; Str detail] with (map of_option [Some name; Some detail]).
  rewrite join_snips_strings. cbn [bind map].
  set (head := "Fetch failed (" ++ joined ", " [name; detail] ++ ")").
  change [Str head; of_option url] with (map of_option [Some head; url]).
  rewrite join_snips_strings. cbn [bind map]. destruct url; reflexivity.
Qed.

Lemma init_int_status (cfg : settings) (name : string) (n : Z)
      (url : option string) (base_error : option exception) (log_level : Z) :
  n <> 0 -> init cfg name (Int n) url base_error log_level = Raise TypeError.
Proof.
  intros N. unfold init, _join_snips.
  assert (T : truthy (Int n) = true).
  { simpl. destruct (Z.eqb_spec n 0); [contradiction | reflexivity]. }
  destruct base_error as [[[|c T']]|]; cbn [filter truthy Py.truthy type_name];
    fold (truthy (Int n)); rewrite T; reflexivity.
Qed.

Lemma init_ok_status (cfg : settings) (name : string) (status : snip)
      (url : option string) (base_error : option exception) (log_level : Z)
      (error : t) (record : log_record) :
  init cfg name status url base_error log_level = Ok (error, record) ->
  forall n, status = Int n -> n = 0.
Proof.
  intros E n ->. destruct (Z.eq_dec n 0) as [-> | N]; [reflexivity|].
  rewrite (init_int_status cfg name n url base_error log_level N) in E.
  discriminate.
Qed.

(** The constructor raises, a [TypeError], exactly when the status is an
    [int] other than zero: [join] takes strings only. In every other case it
    builds the error and logs one record. *)
Theorem init_raises_iff (cfg : settings) (name : string) (status : snip)
        (url : option string) (base_error : option exception) (log_level : Z) :
  let made := init cfg name status url base_error log_level in
  (forall e, made = Raise e -> e = TypeError) /\
  ((exists e, made = Raise e) <-> exists n, status = Int n /\ n <> 0) /\
  ((exists error record, made = Ok (error, record)) <->
   forall n, status = Int n -> n = 0).
Proof.
  intros made. subst made.
  assert (D : (forall n, status = Int n -> n = 0)
              \/ exists n, status = Int n /\ n <> 0).
  { destruct status as [| |n]; try (left; discriminate).
    destruct (Z.eq_dec n 0) as [-> | N]; [left; congruence | right; eauto]. }
  destruct D as [N | (n & -> & N)].
  - rewrite (init_value cfg name status url base_error log_level N).
    split; [discriminate|]. split.
    + split; [intros [e E]; discriminate|].
      intros (n & E & N'). destruct (N' (N n E)).
    + split; [intros _; exact N | intros _; eauto].
  - rewrite (init_int_status cfg name n url base_error log_level N).
    split; [congruence|]. split.
    + split; [intros _; eauto | intros _; eauto].
    + split; [intros (e & r & E); discriminate|].
      intros Z0. destruct (N (Z0 n eq_refl)).
Qed.

(** The error keeps what it was given, and its detail names the type of the
    cause and the status, joined by a comma when both are there; the detail
    is empty exactly when there is neither. *)
Theorem detail_spec (cfg : settings) (name : string) (status : snip)
        (url : option string) (base_error : option exception) (log_level : Z)
        (error : t) (record : log_record) :
  init cfg name status url base_error log_level = Ok (error, record) ->
  let cause := cause_name base_error in
  let code := status_text status in
  error_name error = name /\ WebError.status error = status /\
  WebError.url error = url /\ WebError.base_error error = base_error /\
  detail error
  = (if Py.truthy cause
     then if Py.truthy code then cause ++ ", " ++ code else cause
     else code) /\
  (detail error = "" <-> cause = "" /\ code = "").
Proof.
  intros E cause code.
  pose proof (init_ok_status _ _ _ _ _ _ _ _ E) as N.
  rewrite (init_value cfg name status url base_error log_level N) in E.
  injection E as <- _. cbn [error_name WebError.status WebError.url
                            WebError.base_error detail].
  repeat (split; [reflexivity|]).
  fold cause code. unfold joined. cbn [filter].
  destruct cause as [|c1 s1], code as [|c2 s2]; cbn [Py.truthy String.concat];
    (split; [reflexivity|]); split; try discriminate; try (intros [? ?]; discriminate);
    auto.
Qed.

(** The record logged carries the level given and the text
    [Fetch failed (reason)], followed by a colon and the URL when there is
    one, the reason being the name of the error and the detail; the cause
    goes with it only at level [ERROR] or above, or in debug mode. *)
Theorem log_record_spec (cfg : settings) (name : string) (status : snip)
        (url : option string) (base_error : option exception) (log_level : Z)
        (error : t) (record : log_record) :
  init cfg name status url base_error log_level = Ok (error, record) ->
  let reason :=
    if Py.truthy name
    then if Py.truthy (detail error) then name ++ ", " ++ detail error else name
    else detail error in
  level record = log_level /\
  msg record
  = "Fetch failed (" ++ reason ++ ")"
    ++ (if Py.truthy (url_text url) then ": " ++ url_text url else "") /\
  prefix "Fetch failed (" (msg record) = true /\
  (log_level < ERROR cfg -> DEBUG cfg = false -> exc_info record = None) /\
  (ERROR cfg <= log_level \/ DEBUG cfg = true -> exc_info record = base_error).
Proof.
  intros E reason.
  pose proof (init_ok_status _ _ _ _ _ _ _ _ E) as N.
  rewrite (init_value cfg name status url base_error log_level N) in E.
  injection E as <- <-. cbn [level msg exc_info detail] in *.
  set (d := joined ", " [cause_name base_error; status_text status]) in *.
  assert (R : joined ", " [name; d] = reason).
  { subst reason. unfold joined. cbn [filter].
    destruct name, d; reflexivity. }
  rewrite R.
  assert (M : joined ": " ["Fetch failed (" ++ reason ++ ")"; url_text url]
              = "Fetch failed (" ++ reason ++ ")"
                ++ (if Py.truthy (url_text url) then ": " ++ url_text url else "")).
  { set (head := "Fetch failed (" ++ reason ++ ")").
    assert (T : Py.truthy head = true) by reflexivity.
    unfold joined. cbn [filter]. rewrite T.
    destruct (url_text url) as [|c u]; cbn [Py.truthy String.concat].
    - reflexivity.
    - unfold head. rewrite !append_assoc. reflexivity. }
  cbn [append] in M. rewrite M. split; [reflexivity|]. split; [reflexivity|].
  split; [apply prefix_iff; eexists; reflexivity|]. split.
  - intros Lt ->. rewrite orb_false_r.
    destruct (Z.geb_spec log_level (ERROR cfg)); [lia | reflexivity].
  - intros [Ge | ->]; [|rewrite orb_true_r; reflexivity].
    destruct (Z.geb_spec log_level (ERROR cfg)); [reflexivity | lia].
Qed.

Lemma error_key_map (name : string) :
  PyStr.replace " " "_" (Py.lower name)
  = (fix go (s : string) : string :=
       match s with
       | EmptyString => EmptyString
       | String c s' => String (key_char c) (go s')
       end) name.
Proof. induction name as [|c s IH]; simpl; [reflexivity|]. now rewrite IH. Qed.

Lemma key_char_normal (c : ascii) :
  negb (Ascii.eqb (key_char c) " ") && negb (Py.is_upper (key_char c)) = true
  /\ key_char (key_char c) = key_char c.
Proof.
  destruct c as [[] [] [] [] [] [] [] []]; split; vm_compute; reflexivity.
Qed.

(** The key looked up in the catalogue has the length of the name of the
    error and holds no blank and no capital letter; taking the key of a key
    changes nothing, so names that have the same key are told apart by
    nothing in the catalogue. *)
Theorem error_key_normal (self : t) :
  String.length (error_key self) = String.length (error_name self) /\
  every (fun c => negb (Ascii.eqb c " ") && negb (Py.is_upper c)) (error_key self)
  = true /\
  (forall other : t, error_name other = error_key self ->
                     error_key other = error_key self).
Proof.
  unfold error_key. generalize (error_name self). intros name.
  split; [|split].
  - induction name as [|c s IH]; simpl; congruence.
  - rewrite error_key_map. induction name as [|c s IH]; [reflexivity|].
    cbn [every]. rewrite (proj1 (key_char_normal c)). exact IH.
  - intros other ->. rewrite !error_key_map.
    induction name as [|c s IH]; [reflexivity|].
    rewrite (proj2 (key_char_normal c)). f_equal. exact IH.
Qed.

Section Message.

Context {I : I18n}.

(** The message is [ERROR:], the text of the catalogue under the key of the
    error and the detail in brackets, each apart by one blank, an empty text
    or detail leaving no blank behind; it raises what the catalogue raises,
    and nothing else. *)
Theorem i18n_message_spec (self : t) (lang : option string) :
  (forall text, i18n lang (error_key self) = Ok text ->
     i18n_message self lang
     = Ok ("ERROR:"
           ++ (if Py.truthy text then " " ++ text else "")
           ++ (if Py.truthy (detail self) then " (" ++ detail self ++ ")" else ""))) /\
  (forall e, i18n lang (error_key self) = Raise e -> i18n_message self lang = Raise e) /\
  str self = i18n_message self None.
Proof.
  unfold str, i18n_message. split; [|split; [|reflexivity]].
  - intros text ->. cbn [bind].
    destruct (detail self) as [|c d]; cbn [Py.truthy].
    + change [Str "ERROR:"; Str text; NoneSnip]
        with (map of_option [Some "ERROR:"; Some text; None]).
      rewrite join_snips_strings. destruct text; [reflexivity|].
      unfold joined. cbn [map filter Py.truthy String.concat append].
      rewrite append_empty_r. reflexivity.
    + change [Str "ERROR:"; Str text; Str ("(" ++ String c d ++ ")")]
        with (map of_option [Some "ERROR:"; Some text;
                             Some ("(" ++ String c d ++ ")")]).
      rewrite join_snips_strings. destruct text; [reflexivity|].
      unfold joined. cbn [map filter Py.truthy String.concat append].
      rewrite ?append_assoc. reflexivity.
  - intros e ->. reflexivity.
Qed.

End Message.

End ErrorValue.

(** ** The error value on concrete inputs *)

Section ErrorExamples.

Import WebError.

#[local] Existing Instance echo_catalogue.

Lemma init_raises_iff_witness :
  init quiet "Status code error" (Int 404) (Some "https://example.org/feed")
       None 10
  = Raise TypeError.
Proof.
  pose proof (init_raises_iff quiet "Status code error" (Int 404)
                              (Some "https://example.org/feed") None 10)
    as [T [R _]].
  assert (N : exists n, Int 404 = Int n /\ n <> 0).
  { exists 404. split; [reflexivity | discriminate]. }
  destruct (proj2 R N) as [e E].
  rewrite E. f_equal. exact (T e E).
Defined.

Lemma detail_spec_witness :
  detail (fst timed_out) = "TimeoutError, 504".
Proof.
  assert (E : init quiet "Network timeout" (Str "504")
                   (Some "https://example.org/feed") (Some timeout_error) 10
              = Ok timed_out) by reflexivity.
  exact (proj1 (proj2 (proj2 (proj2 (proj2 (detail_spec _ _ _ _ _ _ _ _ E)))))).
Defined.

Lemma log_record_spec_witness :
  msg (snd timed_out)
  = "Fetch failed (Network timeout, TimeoutError, 504): https://example.org/feed"
  /\ exc_info (snd timed_out) = None.
Proof.
  assert (E : init quiet "Network timeout" (Str "504")
                   (Some "https://example.org/feed") (Some timeout_error) 10
              = Ok timed_out) by reflexivity.
  split.
  - exact (proj1 (proj2 (log_record_spec _ _ _ _ _ _ _ _ E))).
  - apply (proj1 (proj2 (proj2 (proj2 (log_record_spec _ _ _ _ _ _ _ _ E)))));
      [vm_compute; reflexivity | reflexivity].
Defined.

Lemma error_key_normal_witness :
  error_key (mk "status_code_error" NoneSnip None None "")
  = error_key (mk "Status Code Error" NoneSnip None None "").
Proof.
  apply (proj2 (proj2 (error_key_normal
                         (mk "Status Code Error" NoneSnip None None "")))).
  reflexivity.
Defined.

Lemma i18n_message_spec_witness :
  i18n_message (fst timed_out) (Some "en")
  = Ok "ERROR: network_timeout (TimeoutError, 504)".
Proof.
  apply (proj1 (i18n_message_spec (fst timed_out) (Some "en")) "network_timeout").
  reflexivity.
Defined.

End ErrorExamples.

(** * The cookie jar *)

Section CookieJars.

Local Open Scope list_scope.

Context {A : Aiohttp}.

Import YummyCookieJar.

Lemma run_app {S : Type} (step : S -> jar_op -> jar_answer * S) (s : S)
      (l1 l2 : list jar_op) :
  run step s (l1 ++ l2)
  = (fst (run step s l1) ++ fst (run step (snd (run step s l1)) l2),
     snd (run step (snd (run step s l1)) l2)).
Proof.
  revert s; induction l1 as [|o l1 IH]; intros s; cbn [run app fst snd].
  - destruct (run step s l2); reflexivity.
  - destruct (step s o) as [x s']. rewrite IH.
    destruct (run step s' l1) as [xs s'']. cbn [fst snd].
    destruct (run step s'' l2); reflexivity.
Qed.

(** While it is a dummy, the jar is the dummy jar. *)
Lemma run_dummy (ops : list jar_op) (d : jar DummyCookieJar) (args : init_args) :
  no_update ops = true ->
  run yummy_step (mk (Dummy d) args true) ops
  = (fst (run (impl_step DummyCookieJar) d ops),
     mk (Dummy (snd (run (impl_step DummyCookieJar) d ops))) args true).
Proof.
  revert d; induction ops as [|o ops IH]; intros d N; [reflexivity|].
  cbn [no_update forallb] in N. apply andb_true_iff in N as [U N].
  cbn [run].
  assert (S1 : yummy_step (mk (Dummy d) args true) o
               = (fst (impl_step DummyCookieJar d o),
                  mk (Dummy (snd (impl_step DummyCookieJar d o))) args true)).
  { destruct o; try discriminate U; cbn; unfold delegate, returned; cbn;
      try reflexivity;
      match goal with |- context [let (_, _) := ?x in _] => destruct x end;
      reflexivity. }
  rewrite S1. destruct (impl_step DummyCookieJar d o) as [x d']. cbn [fst snd].
  rewrite (IH d' N).
  destruct (run (impl_step DummyCookieJar) d' ops). reflexivity.
Qed.

(** Once it holds a real jar, the jar is that jar, for good. *)
Lemma run_real (ops : list jar_op) (j : jar CookieJar) (args : init_args) :
  run yummy_step (mk (Real j) args false) ops
  = (fst (run (impl_step CookieJar) j ops),
     mk (Real (snd (run (impl_step CookieJar) j ops))) args false).
Proof.
  revert j; induction ops as [|o ops IH]; intros j; [reflexivity|].
  cbn [run].
  assert (S1 : yummy_step (mk (Real j) args false) o
               = (fst (impl_step CookieJar j o),
                  mk (Real (snd (impl_step CookieJar j o))) args false)).
  { destruct o; cbn; unfold update_cookies, delegate, returned; cbn;
      try reflexivity;
      match goal with |- context [let (_, _) := ?x in _] => destruct x end;
      reflexivity. }
  rewrite S1. destruct (impl_step CookieJar j o) as [x j']. cbn [fst snd].
  rewrite (IH j').
  destruct (run (impl_step CookieJar) j' ops). reflexivity.
Qed.

(** The first [update_cookies] makes the real jar, from the arguments kept. *)
Lemma first_update (d : jar DummyCookieJar) (args : init_args) (a : call_args) :
  yummy_step (mk (Dummy d) args true) (UpdateCookies a)
  = (fst (impl_step CookieJar (jar_new CookieJar args) (UpdateCookies a)),
     mk (Real (snd (impl_step CookieJar (jar_new CookieJar args) (UpdateCookies a))))
        args false).
Proof.
  cbn. unfold update_cookies, delegate, returned. cbn.
  destruct (jar_update_cookies CookieJar (jar_new CookieJar args) a). reflexivity.
Qed.

Lemma run_upgrade (args : init_args) (pre post : list jar_op) (a : call_args) :
  no_update pre = true ->
  run yummy_step (__init__ args) (pre ++ UpdateCookies a :: post)
  = (fst (run (impl_step DummyCookieJar) (jar_new DummyCookieJar args) pre)
     ++ fst (run (impl_step CookieJar) (jar_new CookieJar args)
                 (UpdateCookies a :: post)),
     mk (Real (snd (run (impl_step CookieJar) (jar_new CookieJar args)
                        (UpdateCookies a :: post))))
        args false).
Proof.
  intros N. rewrite run_app. unfold __init__. rewrite (run_dummy pre _ args N).
  cbn [fst snd]. cbn [run]. rewrite first_update.
  destruct (impl_step CookieJar (jar_new CookieJar args) (UpdateCookies a))
    as [x j]. cbn [fst snd]. rewrite run_real.
  destruct (run (impl_step CookieJar) j post). reflexivity.
Qed.

(** A sequence of operations either has no update, or splits at its first. *)
Lemma split_at_first_update (ops : list jar_op) :
  no_update ops = true \/
  exists pre a post, ops = pre ++ UpdateCookies a :: post /\ no_update pre = true.
Proof.
  induction ops as [|o ops [N | (pre & a & post & -> & N)]].
  - left. reflexivity.
  - destruct (is_update o) eqn:U.
    + right. destruct o as [x| | | | | |]; try discriminate U.
      exists [], x, ops. split; reflexivity.
    + left. unfold no_update. cbn [forallb]. rewrite U. exact N.
  - destruct (is_update o) eqn:U.
    + right. destruct o as [x| | | | | |]; try discriminate U.
      exists [], x, (pre ++ UpdateCookies a :: post). split; reflexivity.
    + right. exists (o :: pre), a, post. split; [reflexivity|].
      unfold no_update. cbn [forallb]. rewrite U. exact N.
Qed.

Lemma no_update_app (l1 l2 : list jar_op) :
  no_update (l1 ++ l2) = no_update l1 && no_update l2.
Proof. apply forallb_app. Qed.

(** Up to the first [update_cookies] a fresh [YummyCookieJar] answers as the
    [DummyCookieJar] made from its arguments; from that call on it answers as
    a [CookieJar] made from the same arguments at that call, and is that
    jar. *)
Theorem yummy_trace (args : init_args) (pre post : list jar_op) (a : call_args) :
  no_update pre = true ->
  let dummy := run (impl_step DummyCookieJar) (jar_new DummyCookieJar args) pre in
  let real :=
    run (impl_step CookieJar) (jar_new CookieJar args) (UpdateCookies a :: post) in
  run yummy_step (__init__ args) pre
  = (fst dummy, mk (Dummy (snd dummy)) args true) /\
  run yummy_step (__init__ args) (pre ++ UpdateCookies a :: post)
  = (fst dummy ++ fst real, mk (Real (snd real)) args false).
Proof.
  intros N dummy real. split.
  - apply run_dummy, N.
  - apply run_upgrade, N.
Qed.

(** Whatever was done to a fresh [YummyCookieJar]: it keeps the arguments
    it was made with; its flag says dummy exactly when no [update_cookies]
    was called, and exactly when the jar behind is the dummy one; and once
    it is not a dummy, nothing done afterwards makes it one again. *)
Theorem yummy_invariant (args : init_args) (ops : list jar_op) :
  let self := snd (run yummy_step (__init__ args) ops) in
  init self = args /\
  (is_dummy self = true <-> no_update ops = true) /\
  (is_dummy self = true <-> exists d, real self = Dummy d) /\
  (is_dummy self = false <-> exists j, real self = Real j) /\
  (is_dummy self = false ->
   forall more, is_dummy (snd (run yummy_step (__init__ args) (ops ++ more))) = false).
Proof.
  intros self. subst self.
  destruct (split_at_first_update ops) as [N | (pre & a & post & -> & N)].
  - unfold __init__. rewrite (run_dummy ops _ args N). cbn [snd init is_dummy real].
    split; [reflexivity|]. split; [tauto|]. split; [split; eauto|].
    split; [split; [discriminate | intros [j E]; discriminate]|]. discriminate.
  - rewrite (run_upgrade args pre post a N). cbn [snd init is_dummy real].
    split; [reflexivity|]. split.
    { rewrite no_update_app. cbn [no_update forallb is_update negb].
      rewrite andb_false_r. tauto. }
    split; [split; [discriminate | intros [d E]; discriminate]|].
    split; [split; eauto|].
    intros _ more. rewrite <- app_assoc. cbn [app].
    rewrite (run_upgrade args pre (post ++ more) a N). reflexivity.
Qed.

End CookieJars.

Section CookieJarExamples.

Local Open Scope list_scope.

#[local] Existing Instance list_jars.

Import YummyCookieJar.

Lemma yummy_trace_witness :
  fst (run yummy_step (__init__ (A := list_jars) tt)
           ([Len; Clear (A := list_jars) []]
              ++ UpdateCookies (A := list_jars) [1; 2]%nat
              :: [Len; Iter; Clear (A := list_jars) []; Len]))
  = [Length 0; Returned (A := list_jars) []; Returned (A := list_jars) [];
     Length 2; Cookies (A := list_jars) [1; 2]%nat;
     Returned (A := list_jars) []; Length 0].
Proof.
  rewrite (proj2 (yummy_trace (A := list_jars) tt
                              [Len; Clear (A := list_jars) []]
                              [Len; Iter; Clear (A := list_jars) []; Len]
                              [1; 2]%nat eq_refl)).
  reflexivity.
Defined.

Lemma yummy_invariant_witness :
  is_dummy (snd (run yummy_step (__init__ (A := list_jars) tt)
                     ([UpdateCookies (A := list_jars) [1]%nat]
                        ++ [Clear (A := list_jars) [];
                            ClearDomain (A := list_jars) []])))
  = false.
Proof.
  apply (proj2 (proj2 (proj2 (proj2
           (yummy_invariant (A := list_jars) tt
                            [UpdateCookies (A := list_jars) [1]%nat]))))).
  reflexivity.
Defined.

End CookieJarExamples.

(** * More on the cache-lifetime view and the heuristic *)

Section Lifetime.

Context {L : PyLib}.

Import WebResponse.

Lemma max_age_no_cache (self : t) :
  let cc := Py.lower (Headers.get_default (headers self) "Cache-Control" "") in
  occurs "no-cache" cc \/ occurs "no-store" cc -> max_age self = Some 0.
Proof.
  intros cc H. unfold max_age. fold cc.
  assert (NE : cc <> "").
  { destruct H as [H | H]; apply (occurs_nonempty _ _ H); discriminate. }
  destruct (Py.truthy cc) eqn:E; [|apply truthy_false in E; contradiction].
  simpl. destruct H as [H | H]; apply contains_iff in H; rewrite H;
    [reflexivity | rewrite orb_true_r; reflexivity].
Qed.

Lemma expires_of_remaining (self : t) (r : Z) :
  age_remaining self = Some r -> 0 < r ->
  expires self
  = (date <- date self ;; d <- Datetime.add date (r * 1000000) ;; Ok (Some d)).
Proof.
  intros E P. unfold expires. rewrite E.
  destruct (Z.leb_spec r 0); [lia|].
  unfold Datetime.plus_seconds.
  destruct (date self) as [d0|x]; cbn [bind]; [|reflexivity].
  rewrite (timedelta_small r (age_remaining_bounds _ _ E)). reflexivity.
Qed.

(** With a [max_age], a defined [expires] lies after [date], by six hours at
    most, and in the zone of [date]. *)
Theorem expires_after_date (self : t) (e : datetime) :
  max_age self <> None -> expires self = Ok (Some e) ->
  exists d0,
    date self = Ok d0 /\
    Datetime.utcoffset e = Datetime.utcoffset d0 /\
    Datetime.wall d0 < Datetime.wall e
    <= Datetime.wall d0 + 21600 * 1000000.
Proof.
  intros M E. destruct (max_age self) as [m|] eqn:Mx; [clear M | congruence].
  pose proof (age_remaining_of_max_age _ _ Mx) as R.
  pose proof (age_remaining_bounds _ _ R) as B.
  set (r := clamp 0 21600 (m - match age self with Some a => a | None => 0 end)) in *.
  destruct (Z.eq_dec r 0) as [Z0 | NZ].
  - unfold expires in E. rewrite R, Z0 in E. discriminate.
  - rewrite (expires_of_remaining _ _ R ltac:(lia)) in E.
    destruct (date self) as [d0|x]; cbn [bind] in E; [|discriminate].
    exists d0. split; [reflexivity|].
    unfold Datetime.add in E. destruct (_ && _); [|discriminate].
    injection E as <-. cbn [Datetime.utcoffset Datetime.wall].
    split; [reflexivity | lia].
Qed.

(** [max-age] overrides [Expires]: two views read at the same instant, whose
    headers agree on every key but [Expires], and which have a [max_age],
    have the same [expires]. *)
Theorem max_age_overrides_expires (v1 v2 : t) :
  clock v1 = clock v2 ->
  (forall key, Headers.key_eqb key "Expires" = false ->
               Headers.get (headers v1) key = Headers.get (headers v2) key) ->
  max_age v1 <> None ->
  expires v1 = expires v2.
Proof.
  intros C H M.
  assert (Mx : max_age v1 = max_age v2).
  { unfold max_age, Headers.get_default. rewrite (H "Cache-Control" eq_refl).
    reflexivity. }
  assert (Ag : age v1 = age v2).
  { unfold age. rewrite (H "Age" eq_refl). reflexivity. }
  assert (Dt : date v1 = date v2).
  { unfold date, now. rewrite (H "Date" eq_refl), C. reflexivity. }
  assert (Ar : age_remaining v1 = age_remaining v2).
  { unfold age_remaining. rewrite Mx, Ag. reflexivity. }
  unfold expires. rewrite <- Ar, <- Dt.
  destruct (age_remaining v1) as [r|] eqn:R; [reflexivity|].
  exfalso. apply M. revert R. unfold age_remaining.
  destruct (max_age v1); [|reflexivity].
  destruct (_ <? _); [discriminate|]. destruct (_ >? _); discriminate.
Qed.

Import WebFeed.

Lemma gt_now_true (d : datetime) (wr : WebResponse.t) :
  Datetime.gt d (WebResponse.now wr) = Ok true ->
  exists off, Datetime.utcoffset d = Some off /\
              WebResponse.clock wr < Datetime.wall d - off.
Proof.
  unfold Datetime.gt, WebResponse.now, Datetime.now_utc.
  cbn [Datetime.utcoffset Datetime.wall].
  destruct (Datetime.utcoffset d) as [off|]; [|discriminate].
  intros [= G]. exists off. split; [reflexivity|].
  rewrite Z.gtb_ltb in G. apply Z.ltb_lt in G. lia.
Qed.

Lemma feed_rule_future (self : WebFeed.t) (wr : WebResponse.t) (d : datetime) :
  feed_ttl_rule self wr = Ok (Some d) ->
  Datetime.gt d (WebResponse.now wr) = Ok true.
Proof.
  unfold feed_ttl_rule.
  destruct (rss_d self) as [rss|]; [|discriminate].
  destruct (generator rss) as [g|]; [|discriminate].
  destruct (updated rss) as [u|]; [|discriminate].
  destruct (_ && _); [|discriminate].
  destruct (ttl_in_second rss wr) as [t0|x]; cbn [bind]; [|discriminate].
  destruct (t0 >? 300); [|discriminate].
  destruct (rfc_2822_8601_to_datetime (Some u)) as [[d0|]|x]; cbn [bind];
    [| discriminate | discriminate].
  destruct (Datetime.plus_seconds d0 t0) as [n|x]; cbn [bind]; [|discriminate].
  destruct (Datetime.gt n (WebResponse.now wr)) as [[|]|x] eqn:G; cbn [bind];
    try discriminate.
  intros [= <-]. exact G.
Qed.

(** An instant the method returns is aware of its zone and strictly after
    [now]: the method never defers to the past, nor to the present. *)
Theorem deferral_after_now (self : WebFeed.t) (d : datetime) :
  calc_next_check_as_per_server_side_cache self = Ok (Some d) ->
  exists wr off,
    web_response self = Some wr /\
    Datetime.gt d (WebResponse.now wr) = Ok true /\
    Datetime.utcoffset d = Some off /\
    WebResponse.clock wr < Datetime.wall d - off.
Proof.
  intros E.
  destruct (web_response self) as [wr|] eqn:W;
    [|unfold calc_next_check_as_per_server_side_cache in E; rewrite W in E;
      discriminate].
  assert (G : Datetime.gt d (WebResponse.now wr) = Ok true).
  { rewrite (calc_of_rules _ _ W) in E. unfold edge_cache_rule in E.
    destruct (WebFeed.headers self) as [h|]; [|discriminate].
    destruct (in_set _ _); cbn [bind] in E; [|apply (feed_rule_future _ _ _ E)].
    destruct (WebResponse.expires wr) as [[e|]|x]; cbn [bind] in E;
      [| apply (feed_rule_future _ _ _ E) | discriminate].
    destruct (Datetime.gt e (WebResponse.now wr)) as [[|]|x] eqn:Gt;
      cbn [bind] in E; [| apply (feed_rule_future _ _ _ E) | discriminate].
    injection E as <-. exact Gt. }
  destruct (gt_now_true _ _ G) as (off & Z0 & Lt).
  exists wr, off. auto.
Qed.

(** A response that may not be cached is not deferred: with [no-cache] or
    [no-store] in [Cache-Control], an age that is not negative and a feed
    that gives no [ttl] in digits, [expires] is absent and the method defers
    nothing, whatever [Expires], the cache status and the feed say. *)
Theorem no_cache_not_deferred (self : WebFeed.t) (wr : WebResponse.t)
        (h : Headers.t) (rss : FeedDict) :
  web_response self = Some wr -> WebFeed.headers self = Some h ->
  rss_d self = Some rss ->
  (let cc := Py.lower (Headers.get_default (WebResponse.headers wr)
                                           "Cache-Control" "") in
   occurs "no-cache" cc \/ occurs "no-store" cc) ->
  (forall a, age wr = Some a -> 0 <= a) ->
  Py.isdecimal (match ttl rss with Some s => s | None => "" end) = false ->
  expires wr = Ok None /\
  calc_next_check_as_per_server_side_cache self = Ok None.
Proof.
  intros W H R C Ag T.
  pose proof (max_age_no_cache wr C) as M.
  assert (Ar : age_remaining wr = Some 0).
  { rewrite (age_remaining_of_max_age _ _ M). f_equal. unfold clamp.
    destruct (age wr) as [a|]; [specialize (Ag a eq_refl)|]; lia. }
  assert (E : expires wr = Ok None).
  { unfold expires. rewrite Ar. reflexivity. }
  split; [exact E|].
  rewrite (calc_of_rules _ _ W). unfold edge_cache_rule. rewrite H, E.
  assert (F : feed_ttl_rule self wr = Ok None).
  { unfold feed_ttl_rule. rewrite R.
    destruct (generator rss) as [g|]; [|reflexivity].
    destruct (updated rss) as [u|]; [|reflexivity].
    destruct (_ && _); [|reflexivity].
    unfold ttl_in_second. rewrite T, M. reflexivity. }
  destruct (in_set _ _); cbn [bind]; exact F.
Qed.

(** A [ttl] in digits decides the second rule alone: the rule then reads the
    response for its [now] only, not for its [max_age]; a [ttl] that [int]
    reads, of five minutes or less, yields no deferral, however long the
    [max_age]; and a [ttl] of more digits than [int] reads makes the rule
    raise for a feed of RSSHub that carries an [updated]. *)
Theorem decimal_ttl_decides (self : WebFeed.t) (rss : FeedDict) :
  rss_d self = Some rss ->
  Py.isdecimal (match ttl rss with Some s => s | None => "" end) = true ->
  let digits := String.length (match ttl rss with Some s => s | None => "" end) in
  (forall wr1 wr2, WebResponse.clock wr1 = WebResponse.clock wr2 ->
                   feed_ttl_rule self wr1 = feed_ttl_rule self wr2) /\
  ((digits <= Py.INT_MAX_STR_DIGITS)%nat ->
   decimal_value (match ttl rss with Some s => s | None => "" end) <= 5 ->
   forall wr, feed_ttl_rule self wr = Ok None) /\
  ((Py.INT_MAX_STR_DIGITS < digits)%nat ->
   generator rss = Some "RSSHub" ->
   forall updated_str, updated rss = Some updated_str -> updated_str <> "" ->
   forall wr, feed_ttl_rule self wr = Raise ValueError).
Proof.
  intros R T digits. split; [|split].
  - intros wr1 wr2 C. unfold feed_ttl_rule, ttl_in_second. rewrite R, T.
    unfold WebResponse.now. rewrite C. reflexivity.
  - intros Len Le wr.
    assert (Tt : ttl_in_second rss wr
                 = Ok (or_minus_one
                         (Some (decimal_value
                                  (match ttl rss with Some s => s | None => "" end)
                                * 60)))).
    { unfold ttl_in_second. rewrite T.
      destruct (int_isdecimal _ T Len) as [-> _]. reflexivity. }
    unfold feed_ttl_rule. rewrite R, Tt.
    destruct (generator rss) as [g|]; [|reflexivity].
    destruct (updated rss) as [u|]; [|reflexivity].
    destruct (_ && _); [|reflexivity]. cbn [bind].
    assert (S : or_minus_one
                  (Some (decimal_value
                           (match ttl rss with Some s => s | None => "" end) * 60))
                <= 300).
    { unfold or_minus_one. destruct (_ =? 0); lia. }
    set (t0 := or_minus_one _) in *.
    rewrite Z.gtb_ltb. destruct (Z.ltb_spec 300 t0); [lia | reflexivity].
  - intros Len G u U NE wr.
    assert (O : oversized_ttl rss = true).
    { unfold oversized_ttl. rewrite T. apply Nat.ltb_lt, Len. }
    rewrite (feed_ttl_rule_unfold _ _ _ _ R G U NE),
      (ttl_in_second_oversized _ wr O).
    reflexivity.
Qed.

(** The first rule goes by the date of the server: when the cache status is
    one of the four and the view has a positive [age_remaining], the method
    returns [date] plus [age_remaining] when that instant is after [now],
    and passes to the second rule when it is not. Without a [Date] header
    that reads as a date, [date] is [now], and the method defers. *)
Theorem edge_rule_by_server_date (self : WebFeed.t) (wr : WebResponse.t)
        (h : Headers.t) (d0 : datetime) (r off : Z) :
  web_response self = Some wr -> WebFeed.headers self = Some h ->
  cache_status_hit (Headers.get h "cf-cache-status") ->
  age_remaining wr = Some r -> 0 < r ->
  date wr = Ok d0 ->
  Datetime.utcoffset d0 = Some off ->
  0 <= Datetime.wall d0 ->
  Datetime.wall d0 + r * 1000000 <= Datetime.MAX_WALL ->
  let e := Datetime.mk (Datetime.wall d0 + r * 1000000) (Some off) in
  (clock wr < Datetime.wall d0 - off + r * 1000000 ->
   calc_next_check_as_per_server_side_cache self = Ok (Some e)) /\
  (Datetime.wall d0 - off + r * 1000000 <= clock wr ->
   calc_next_check_as_per_server_side_cache self = feed_ttl_rule self wr) /\
  (rfc_2822_8601_to_datetime (Headers.get (WebResponse.headers wr) "Date")
   = Ok None ->
   calc_next_check_as_per_server_side_cache self
   = Ok (Some (Datetime.mk (clock wr + r * 1000000) (Some 0)))).
Proof.
  intros W H S Ar P Dt Z0 W0 W1 e.
  assert (E : expires wr = Ok (Some e)).
  { rewrite (expires_of_remaining _ _ Ar P), Dt. cbn [bind]. unfold Datetime.add.
    destruct (Z.leb_spec 0 (Datetime.wall d0 + r * 1000000)); [|lia].
    destruct (Z.leb_spec (Datetime.wall d0 + r * 1000000) Datetime.MAX_WALL);
      [|lia].
    cbn [andb bind]. rewrite Z0. reflexivity. }
  assert (G : Datetime.gt e (now wr)
              = Ok (Datetime.wall d0 + r * 1000000 - off >? clock wr - 0)).
  { reflexivity. }
  assert (C : calc_next_check_as_per_server_side_cache self
              = if Datetime.wall d0 + r * 1000000 - off >? clock wr - 0
                then Ok (Some e) else feed_ttl_rule self wr).
  { rewrite (calc_of_rules _ _ W). unfold edge_cache_rule. rewrite H.
    apply in_set_iff in S. rewrite S, E. cbn [bind]. rewrite G. cbn [bind].
    destruct (_ >? _); reflexivity. }
  rewrite C, Z.gtb_ltb. split; [|split].
  - intros Lt. destruct (Z.ltb_spec (clock wr - 0)
                                    (Datetime.wall d0 + r * 1000000 - off));
      [reflexivity | lia].
  - intros Le. destruct (Z.ltb_spec (clock wr - 0)
                                    (Datetime.wall d0 + r * 1000000 - off));
      [lia | reflexivity].
  - intros D. subst e. revert Dt. unfold date. rewrite D. cbn [bind].
    intros [= <-]. revert Z0.
    unfold now, Datetime.now_utc. cbn [Datetime.utcoffset Datetime.wall].
    intros [= <-].
    destruct (Z.ltb_spec (clock wr - 0) (clock wr + r * 1000000 - 0));
      [reflexivity | lia].
Qed.

End Lifetime.

(** * More on the proxy-bypass predicate *)

Section ProxyMore.

Context {L : PyLib}.

Lemma domains_answer (hostname : string) (domains : list string) :
  exists b, Py.any (domain_matches hostname) domains = Ok b /\
            (b = true <-> exists d, In d domains /\ domain_hit hostname d).
Proof. apply any_spec, domain_matches_spec. Qed.

(** With a host name, the predicate answers, and says to bypass exactly by
    one of its two rules. *)
Lemma proxy_filter_decided (env : Env) (url : string) (parse : bool)
      (hostname : string) :
  (if parse then urlparse_hostname url else Ok (Some url)) = Ok (Some hostname) ->
  (proxy_filter env url parse = Ok false \/ proxy_filter env url parse = Ok true) /\
  (proxy_filter env url parse = Ok false <->
   (PROXY_BYPASS_PRIVATE env = true /\ private_hit (Some hostname) = true) \/
   exists d, In d (PROXY_BYPASS_DOMAINS env) /\ domain_hit hostname d).
Proof.
  intros Hn.
  destruct (domains_answer hostname (PROXY_BYPASS_DOMAINS env)) as (b & A & B).
  assert (R : proxy_filter env url parse
              = Ok (negb ((PROXY_BYPASS_PRIVATE env && private_hit (Some hostname))
                          || (nonempty (PROXY_BYPASS_DOMAINS env) && b)))).
  { unfold proxy_filter. rewrite Hn. cbn [bind].
    destruct (PROXY_BYPASS_PRIVATE env); cbn [orb andb negb].
    - destruct (private_hit (Some hostname)); [reflexivity|].
      destruct (nonempty (PROXY_BYPASS_DOMAINS env)); [|reflexivity].
      rewrite A. reflexivity.
    - destruct (nonempty (PROXY_BYPASS_DOMAINS env)); [|reflexivity].
      cbn [negb]. rewrite A. reflexivity. }
  assert (Dom : nonempty (PROXY_BYPASS_DOMAINS env) && b = true
                <-> exists d, In d (PROXY_BYPASS_DOMAINS env) /\ domain_hit hostname d).
  { destruct (PROXY_BYPASS_DOMAINS env) as [|d0 ds] eqn:D; cbn [nonempty andb].
    - split; [discriminate | intros (d & [] & _)].
    - exact B. }
  rewrite R. split.
  - destruct (negb _); auto.
  - rewrite <- Dom, <- andb_true_iff, <- orb_true_iff.
    destruct (_ || _); cbn [negb]; split; congruence.
Qed.

Lemma bypass_has_hostname (env : Env) (url : string) (parse : bool) :
  proxy_filter env url parse = Ok false ->
  exists hostname,
    (if parse then urlparse_hostname url else Ok (Some url)) = Ok (Some hostname).
Proof.
  unfold proxy_filter. destruct (negb _); [discriminate|].
  destruct (if parse then urlparse_hostname url else Ok (Some url))
    as [[hn|]|x]; cbn [bind]; [eauto | | discriminate].
  cbn [private_hit]. rewrite andb_false_r.
  destruct (nonempty _); discriminate.
Qed.

(** Configuring more never takes a bypass away: a request that bypasses the
    proxy still does when the private setting is switched on or domains are
    added. *)
Theorem bypass_monotone (env env' : Env) (url : string) (parse : bool) :
  (PROXY_BYPASS_PRIVATE env = true -> PROXY_BYPASS_PRIVATE env' = true) ->
  incl (PROXY_BYPASS_DOMAINS env) (PROXY_BYPASS_DOMAINS env') ->
  proxy_filter env url parse = Ok false ->
  proxy_filter env' url parse = Ok false.
Proof.
  intros P D B.
  destruct (bypass_has_hostname _ _ _ B) as [hn Hn].
  apply (proj2 (proxy_filter_decided env' url parse hn Hn)).
  apply (proj2 (proxy_filter_decided env url parse hn Hn)) in B.
  destruct B as [[Pe Hit] | (d & I & Hd)].
  - left. split; [apply P, Pe | exact Hit].
  - right. exists d. split; [apply D, I | exact Hd].
Qed.

Lemma domain_hit_subdomain (hostname domain label : string) :
  domain_hit hostname domain -> domain_hit (label ++ "." ++ hostname) domain.
Proof.
  intros [-> | [pre ->]]; right.
  - exists label. reflexivity.
  - exists (label ++ "." ++ pre). rewrite !append_assoc. reflexivity.
Qed.

(** The domain rule covers every subdomain: when a bare host name bypasses
    the proxy and the private setting is off, so does any name made of a
    label, a dot and that host name. *)
Theorem bypass_covers_subdomains (env : Env) (hostname label : string) :
  PROXY_BYPASS_PRIVATE env = false ->
  proxy_filter env hostname false = Ok false ->
  proxy_filter env (label ++ "." ++ hostname) false = Ok false.
Proof.
  intros P B.
  apply (proj2 (proxy_filter_decided env hostname false hostname eq_refl)) in B.
  apply (proj2 (proxy_filter_decided env _ false (label ++ "." ++ hostname) eq_refl)).
  destruct B as [[Pe _] | (d & I & Hd)]; [congruence|].
  right. exists d. split; [exact I | apply domain_hit_subdomain, Hd].
Qed.

End ProxyMore.

(** ** The same, on concrete inputs *)

Section MoreExamples.

#[local] Existing Instance Ref.lib.

Import WebFeed.

Lemma expires_after_date_witness :
  exists e d, WebResponse.expires response_at_noon = Ok (Some e) /\
              WebResponse.date response_at_noon = Ok d /\
              Datetime.wall d < Datetime.wall e <= Datetime.wall d + 21600 * 1000000.
Proof.
  assert (E : WebResponse.expires response_at_noon
              = Ok (Some (Datetime.mk (OCT_21_2015_072800 + 19800 * 1000000)
                                      (Some 0)))) by reflexivity.
  destruct (expires_after_date response_at_noon _ ltac:(discriminate) E)
    as (d & D & _ & B).
  eexists. exists d. split; [exact E|]. split; [exact D | exact B].
Defined.

Lemma max_age_overrides_expires_witness :
  WebResponse.expires
    (response [("Cache-Control", "max-age=60");
               ("Expires", "Wed, 21 Oct 2015 07:28:00 GMT")] OCT_21_2015_072800)
  = WebResponse.expires
      (response [("Cache-Control", "max-age=60"); ("expires", "never")]
                OCT_21_2015_072800).
Proof.
  apply max_age_overrides_expires; [reflexivity | | discriminate].
  intros key K. cbn [WebResponse.headers response Headers.get].
  replace (Headers.key_eqb "Expires" key) with false
    by (unfold Headers.key_eqb in *; rewrite String.eqb_sym; symmetry; exact K).
  replace (Headers.key_eqb "expires" key) with false
    by (unfold Headers.key_eqb in *; rewrite String.eqb_sym; symmetry; exact K).
  reflexivity.
Defined.

Lemma deferral_after_now_witness :
  exists wr off,
    web_response feed_behind_cloudflare = Some wr /\
    Datetime.gt (Datetime.mk (OCT_21_2015_072800 + 600 * 1000000) (Some 0))
                (WebResponse.now wr) = Ok true /\
    Some 0 = Some off /\
    WebResponse.clock wr < OCT_21_2015_072800 + 600 * 1000000 - off.
Proof.
  assert (E : calc_next_check_as_per_server_side_cache feed_behind_cloudflare
              = Ok (Some (Datetime.mk (OCT_21_2015_072800 + 600 * 1000000) (Some 0))))
    by reflexivity.
  exact (deferral_after_now _ _ E).
Defined.

Lemma no_cache_not_deferred_witness :
  calc_next_check_as_per_server_side_cache feed_not_to_cache = Ok None.
Proof.
  assert (C : let cc := Py.lower (Headers.get_default
                                    (WebResponse.headers response_not_to_cache)
                                    "Cache-Control" "") in
              occurs "no-cache" cc \/ occurs "no-store" cc).
  { cbv zeta. right. apply contains_iff. reflexivity. }
  assert (Ag : forall a, WebResponse.age response_not_to_cache = Some a -> 0 <= a).
  { intros a E. vm_compute in E. injection E as <-. lia. }
  exact (proj2 (no_cache_not_deferred
                  feed_not_to_cache response_not_to_cache
                  [("cf-cache-status", "HIT")] (rsshub_feed None)
                  eq_refl eq_refl eq_refl C Ag eq_refl)).
Defined.

Lemma decimal_ttl_decides_witness :
  feed_ttl_rule (web_feed [] (rsshub_feed (Some "5")) fresh_response)
                (response [("Cache-Control", "max-age=86400")] 0)
  = Ok None /\
  feed_ttl_rule feed_with_long_ttl
                (response [("Cache-Control", "max-age=86400")] 0)
  = Raise ValueError.
Proof.
  assert (Le : decimal_value "5" <= 5) by (vm_compute; discriminate).
  assert (Len : (String.length "5" <= Py.INT_MAX_STR_DIGITS)%nat)
    by (apply Nat.leb_le; vm_compute; reflexivity).
  assert (D : Py.isdecimal FIVE_IN_4301_DIGITS = true) by (vm_compute; reflexivity).
  assert (Long : (Py.INT_MAX_STR_DIGITS < String.length FIVE_IN_4301_DIGITS)%nat)
    by (apply Nat.ltb_lt; vm_compute; reflexivity).
  split.
  - exact (proj1 (proj2 (decimal_ttl_decides
                           (web_feed [] (rsshub_feed (Some "5")) fresh_response)
                           (rsshub_feed (Some "5")) eq_refl eq_refl)) Len Le _).
  - exact (proj2 (proj2 (decimal_ttl_decides
                           feed_with_long_ttl
                           (rsshub_feed (Some FIVE_IN_4301_DIGITS)) eq_refl D))
                 Long eq_refl "Wed, 21 Oct 2015 07:27:59 GMT" eq_refl
                 ltac:(discriminate) _).
Defined.

Lemma edge_rule_by_server_date_witness :
  calc_next_check_as_per_server_side_cache feed_behind_cloudflare
  = Ok (Some (Datetime.mk (OCT_21_2015_072800 + 600 * 1000000) (Some 0))).
Proof.
  assert (S : cache_status_hit
                (Headers.get [("CF-Cache-Status", "HIT")] "cf-cache-status")).
  { exists "HIT". split; [reflexivity | left; reflexivity]. }
  assert (W0 : 0 <= OCT_21_2015_072800) by (vm_compute; discriminate).
  assert (W1 : OCT_21_2015_072800 + 600 * 1000000 <= Datetime.MAX_WALL)
    by (vm_compute; discriminate).
  apply (proj2 (proj2 (edge_rule_by_server_date
                         feed_behind_cloudflare fresh_response
                         [("CF-Cache-Status", "HIT")]
                         (Datetime.mk OCT_21_2015_072800 (Some 0)) 600 0
                         eq_refl eq_refl S eq_refl eq_refl eq_refl eq_refl W0 W1))).
  reflexivity.
Defined.

Lemma bypass_monotone_witness :
  proxy_filter (mk_env true ["example.org"; "example.com"]) "sub.example.com" false
  = Ok false.
Proof.
  apply (bypass_monotone (mk_env false ["example.com"])).
  - discriminate.
  - intros d [<- | []]. right. left. reflexivity.
  - reflexivity.
Defined.

Lemma bypass_covers_subdomains_witness :
  proxy_filter (mk_env false ["example.com"]) ("feeds" ++ "." ++ "sub.example.com")
               false
  = Ok false.
Proof.
  apply bypass_covers_subdomains; reflexivity.
Defined.

End MoreExamples.
